(** * Quote Geometry: the [/api/analyze] endpoint of [src/server.js]

    A shallow embedding of the request handler and of [analyzeQuote],
    together with the part of the JavaScript runtime they rely on
    (values, string coercion, truthiness, [JSON.parse], the string
    methods [indexOf], [lastIndexOf], [substring]).

    The completion API is the only external collaborator.  It is part of
    the world: a function from the history of calls and the current
    request to an outcome, so that stateful and flaky services are
    covered as well as deterministic stubs. *)

From Stdlib Require Import ZArith NArith QArith Qround Qabs List String Ascii Bool Lia.
From Stdlib Require Import Floats.SpecFloat.
Import ListNotations.

(** ** JavaScript strings

    A JavaScript string is a sequence of UTF-16 code units.  [js] embeds
    a literal written with 8-bit characters. *)

Definition code_unit := N.
Definition jsstring := list code_unit.

Definition js (s : string) : jsstring :=
  map N_of_ascii (list_ascii_of_string s).

Arguments js s%_string.

Fixpoint str_eqb (a b : jsstring) : bool :=
  match a, b with
  | [], [] => true
  | x :: a', y :: b' => N.eqb x y && str_eqb a' b'
  | _, _ => false
  end.

(** ** JavaScript numbers: IEEE 754 binary64 *)

Definition number := spec_float.

Definition prec : Z := 53.
Definition emax : Z := 1024.

(** The Number nearest to [m * 10^e] (ties to even), with the sign [neg]:
    the value of a decimal literal. *)
Definition of_decimal (neg : bool) (m : Z) (e : Z) : number :=
  match m with
  | Zpos p =>
      if (0 <=? e)%Z
      then binary_round prec emax neg (p * Z.to_pos (10 ^ e)) 0
      else SFdiv prec emax (S754_finite neg p 0)
                           (S754_finite false (Z.to_pos (10 ^ (- e))) 0)
  | _ => S754_zero neg
  end.

Definition of_nat (n : nat) : number := of_decimal false (Z.of_nat n) 0.

(** [ToBoolean] on a Number: [+0], [-0] and [NaN] are falsy. *)
Definition number_truthy (x : number) : bool :=
  match x with
  | S754_zero _ | S754_nan => false
  | _ => true
  end.

(** *** [Number::toString] (radix 10) *)

Definition Q_of_finite (m : positive) (e : Z) : Q :=
  inject_Z (Zpos m) * Qpower 2 e.

Definition Q_of_decimal (s : Z) (p : Z) : Q :=
  inject_Z s * Qpower 10 p.

Fixpoint uint_chars (u : Decimal.uint) : jsstring :=
  match u with
  | Decimal.Nil => []
  | Decimal.D0 u' => 48%N :: uint_chars u'
  | Decimal.D1 u' => 49%N :: uint_chars u'
  | Decimal.D2 u' => 50%N :: uint_chars u'
  | Decimal.D3 u' => 51%N :: uint_chars u'
  | Decimal.D4 u' => 52%N :: uint_chars u'
  | Decimal.D5 u' => 53%N :: uint_chars u'
  | Decimal.D6 u' => 54%N :: uint_chars u'
  | Decimal.D7 u' => 55%N :: uint_chars u'
  | Decimal.D8 u' => 56%N :: uint_chars u'
  | Decimal.D9 u' => 57%N :: uint_chars u'
  end.

(** Decimal digits of a non-negative integer, most significant first. *)
Definition decimal (z : Z) : jsstring := uint_chars (N.to_uint (Z.to_N z)).

(** The [n] with [10^(n-1) <= x < 10^n], searched from an estimate taken
    from the number of bits. *)
Fixpoint adjust_decade (fuel : nat) (x : Q) (n : Z) : Z :=
  match fuel with
  | O => n
  | S fuel' =>
      if Qle_bool (Qpower 10 n) x then adjust_decade fuel' x (n + 1)
      else if Qle_bool (Qpower 10 (n - 1)) x then n
      else adjust_decade fuel' x (n - 1)
  end.

Definition decade (m : positive) (e : Z) : Z :=
  let l := (Zpos (digits2_pos m) + e)%Z in
  adjust_decade (Z.to_nat (Z.abs l / 1000) + 8) (Q_of_finite m e)
                (l * 30103 / 100000)%Z.

Definition same_number (a b : number) : bool :=
  match a, b with
  | S754_finite sa ma ea, S754_finite sb mb eb =>
      Bool.eqb sa sb && Pos.eqb ma mb && Z.eqb ea eb
  | _, _ => false
  end.

(** The [k]-digit decimals [s * 10^p] that read back as [x]: only the two
    neighbours of [x] on each of the two grids that can hold a [k]-digit
    neighbour need to be looked at. *)
Definition candidates (x : number) (xq : Q) (nx : Z) (k : Z) : list (Z * Z) :=
  let grid (p : Z) :=
    let fl := Qfloor (xq * Qpower 10 (- p)) in
    filter (fun sp : Z * Z =>
              let s := fst sp in
              (10 ^ (k - 1) <=? s)%Z && (s <? 10 ^ k)%Z
              && same_number (of_decimal false s p) x)
           [(fl, p); ((fl + 1)%Z, p)] in
  grid (nx - k)%Z ++ grid (nx - k + 1)%Z.

(** Of two candidates, the one closer to [x]; on a tie the even one. *)
Definition closer (xq : Q) (a b : Z * Z) : Z * Z :=
  let da := Qabs (Q_of_decimal (fst a) (snd a) - xq) in
  let db := Qabs (Q_of_decimal (fst b) (snd b) - xq) in
  match da ?= db with
  | Lt => a
  | Gt => b
  | Eq => if Z.even (fst a) then a else b
  end.

Fixpoint shortest (fuel : nat) (x : number) (xq : Q) (nx : Z) (k : Z)
  : option (Z * Z) :=
  match fuel with
  | O => None
  | S fuel' =>
      match candidates x xq nx k with
      | [] => shortest fuel' x xq nx (k + 1)
      | c :: cs => Some (fold_left (closer xq) cs c)
      end
  end.

Definition repeat_zero (n : Z) : jsstring := repeat 48%N (Z.to_nat n).

(** Steps 6 to 10 of [Number::toString]: [digits] are the [k] digits of
    [s], and the value is [s * 10^(n-k)]. *)
Definition format_number (digits : jsstring) (n : Z) : jsstring :=
  let k := Z.of_nat (List.length digits) in
  if ((k <=? n) && (n <=? 21))%Z then
    digits ++ repeat_zero (n - k)
  else if ((0 <? n) && (n <=? 21))%Z then
    firstn (Z.to_nat n) digits ++ js "." ++ skipn (Z.to_nat n) digits
  else if ((-6 <? n) && (n <=? 0))%Z then
    js "0." ++ repeat_zero (- n) ++ digits
  else
    let ex := (n - 1)%Z in
    let sign := if (ex <? 0)%Z then js "-" else js "+" in
    if (k =? 1)%Z then digits ++ js "e" ++ sign ++ decimal (Z.abs ex)
    else firstn 1 digits ++ js "." ++ skipn 1 digits
         ++ js "e" ++ sign ++ decimal (Z.abs ex).

Definition Number_toString (x : number) : jsstring :=
  match x with
  | S754_nan => js "NaN"
  | S754_zero _ => js "0"
  | S754_infinity s => (if s then js "-" else []) ++ js "Infinity"
  | S754_finite s m e =>
      (if s then js "-" else []) ++
      match binary_round prec emax false m e with
      | S754_finite _ m' e' =>
          let xq := Q_of_finite m' e' in
          let nx := decade m' e' in
          match shortest 17 (S754_finite false m' e') xq nx 1 with
          | Some (d, p) =>
              let digits := decimal d in
              format_number digits (p + Z.of_nat (List.length digits))
          | None => js "NaN" (* 17 digits determine a binary64 value *)
          end
      | S754_infinity _ => js "Infinity"
      | _ => js "0"
      end
  end.

Close Scope Q_scope.

(** ** JavaScript values

    The values that can reach the handler: what [JSON.parse] builds, and
    [undefined] for absent properties.  An object is its list of own
    properties in the order in which they are enumerated; none of them
    is callable. *)

#[warnings="-register-all"]
Inductive value :=
| JUndefined
| JNull
| JBool (b : bool)
| JNumber (x : number)
| JString (s : jsstring)
| JArray (elems : list value)
| JObject (props : list (jsstring * value)).

Definition properties := list (jsstring * value).

Fixpoint get_own (props : properties) (k : jsstring) : option value :=
  match props with
  | [] => None
  | (k', v) :: rest => if str_eqb k' k then Some v else get_own rest k
  end.

(** What a [throw] or a rejected promise carries. *)
Inductive thrown :=
| TypeError
| RangeError
| SyntaxError (text : jsstring)
| Error (message : jsstring)
| Rejection (reason : value).

Inductive completion (A : Type) :=
| Normal (a : A)
| Throw (e : thrown).

Arguments Normal {A} a.
Arguments Throw {A} e.

(** ** [JSON.parse] *)

Inductive token :=
| TLBrace | TRBrace | TLBracket | TRBracket | TColon | TComma
| TString (s : jsstring)
| TNumber (x : number)
| TTrue | TFalse | TNull.

Definition is_ws (c : code_unit) : bool :=
  ((c =? 9) || (c =? 10) || (c =? 13) || (c =? 32))%N.

Definition is_digit (c : code_unit) : bool := ((48 <=? c) && (c <=? 57))%N.

Definition is_letter (c : code_unit) : bool :=
  (((65 <=? c) && (c <=? 90)) || ((97 <=? c) && (c <=? 122)))%N.

(** The characters of numbers and of [true], [false], [null]. *)
Definition is_word_char (c : code_unit) : bool :=
  (is_digit c || is_letter c || (c =? 43) || (c =? 45) || (c =? 46))%N.

Definition punctuation (c : code_unit) : option token :=
  if (c =? 123)%N then Some TLBrace
  else if (c =? 125)%N then Some TRBrace
  else if (c =? 91)%N then Some TLBracket
  else if (c =? 93)%N then Some TRBracket
  else if (c =? 58)%N then Some TColon
  else if (c =? 44)%N then Some TComma
  else None.

Definition hex_value (c : code_unit) : option N :=
  if is_digit c then Some (c - 48)%N
  else if ((97 <=? c) && (c <=? 102))%N then Some (c - 87)%N
  else if ((65 <=? c) && (c <=? 70))%N then Some (c - 55)%N
  else None.

(** The character after a backslash, [u] apart. *)
Definition escape (c : code_unit) : option code_unit :=
  if (c =? 34)%N then Some 34%N
  else if (c =? 92)%N then Some 92%N
  else if (c =? 47)%N then Some 47%N
  else if (c =? 98)%N then Some 8%N
  else if (c =? 102)%N then Some 12%N
  else if (c =? 110)%N then Some 10%N
  else if (c =? 114)%N then Some 13%N
  else if (c =? 116)%N then Some 9%N
  else None.

Fixpoint span_digits (s : jsstring) : list Z * jsstring :=
  match s with
  | c :: s' =>
      if is_digit c
      then let (ds, r) := span_digits s' in (Z.of_N (c - 48) :: ds, r)
      else ([], s)
  | [] => ([], [])
  end.

Definition digits_value (ds : list Z) : Z :=
  fold_left (fun a d => (10 * a + d)%Z) ds 0%Z.

(** The optional fraction of a number: its digits and what follows. *)
Definition fraction (s : jsstring) : option (list Z * jsstring) :=
  match s with
  | 46%N :: r =>
      match span_digits r with
      | ([], _) => None
      | (fs, r') => Some (fs, r')
      end
  | _ => Some ([], s)
  end.

(** The optional exponent of a number: its value and what follows. *)
Definition exponent (s : jsstring) : option (Z * jsstring) :=
  let digits (neg : bool) (r : jsstring) :=
    match span_digits r with
    | ([], _) => None
    | (es, r') =>
        Some ((if neg then - digits_value es else digits_value es)%Z, r')
    end in
  match s with
  | c :: r =>
      if ((c =? 101) || (c =? 69))%N then
        match r with
        | 43%N :: r' => digits false r'
        | 45%N :: r' => digits true r'
        | _ => digits false r
        end
      else Some (0%Z, s)
  | [] => Some (0%Z, s)
  end.

(** A number: an optional minus sign; an integer part that is [0] or
    starts with a non-zero digit; an optional fraction (a dot and at
    least one digit); an optional exponent ([e] or [E], an optional sign,
    at least one digit). *)
Definition number_literal (w : jsstring) : option number :=
  let (neg, w1) :=
    match w with
    | 45%N :: r => (true, r)
    | _ => (false, w)
    end in
  match span_digits w1 with
  | ([], _) => None
  | (d :: ds, w2) =>
      if (d =? 0)%Z && negb (Nat.eqb (List.length ds) 0) then None
      else
        match fraction w2 with
        | None => None
        | Some (fs, w3) =>
            match exponent w3 with
            | Some (e, []) =>
                Some (of_decimal neg (digits_value (d :: ds ++ fs))
                                 (e - Z.of_nat (List.length fs)))
            | _ => None
            end
        end
  end.

Definition word_token (w : jsstring) : option token :=
  if str_eqb w (js "true") then Some TTrue
  else if str_eqb w (js "false") then Some TFalse
  else if str_eqb w (js "null") then Some TNull
  else option_map TNumber (number_literal w).

(** The scanner reads one code unit at a time.  [LStr], [LEsc] and [LHex]
    are inside a string literal (the characters read so far, last first);
    [LWord] is inside a number or a literal name. *)
Inductive lex_state :=
| LIdle
| LStr (acc : jsstring)
| LEsc (acc : jsstring)
| LHex (acc : jsstring) (hex : list N)
| LWord (acc : jsstring).

Definition lex_idle (c : code_unit) : option (list token * lex_state) :=
  if is_ws c then Some ([], LIdle)
  else if (c =? 34)%N then Some ([], LStr [])
  else if is_word_char c then Some ([], LWord [c])
  else
    match punctuation c with
    | Some t => Some ([t], LIdle)
    | None => None
    end.

Definition lex_step (st : lex_state) (c : code_unit)
  : option (list token * lex_state) :=
  match st with
  | LIdle => lex_idle c
  | LStr acc =>
      if (c =? 34)%N then Some ([TString (rev acc)], LIdle)
      else if (c =? 92)%N then Some ([], LEsc acc)
      else if (c <? 32)%N then None
      else Some ([], LStr (c :: acc))
  | LEsc acc =>
      if (c =? 117)%N then Some ([], LHex acc [])
      else
        match escape c with
        | Some c' => Some ([], LStr (c' :: acc))
        | None => None
        end
  | LHex acc hex =>
      match hex_value c with
      | None => None
      | Some h =>
          match hex with
          | [h1; h2; h3] =>
              Some ([], LStr ((((h1 * 16 + h2) * 16 + h3) * 16 + h)%N :: acc))
          | _ => Some ([], LHex acc (hex ++ [h]))
          end
      end
  | LWord acc =>
      if is_word_char c then Some ([], LWord (c :: acc))
      else
        match word_token (rev acc), lex_idle c with
        | Some t, Some (ts, st') => Some (t :: ts, st')
        | _, _ => None
        end
  end.

Fixpoint lex (st : lex_state) (s : jsstring) : option (list token) :=
  match s with
  | [] =>
      match st with
      | LIdle => Some []
      | LWord acc => option_map (fun t => [t]) (word_token (rev acc))
      | _ => None
      end
  | c :: s' =>
      match lex_step st c with
      | None => None
      | Some (ts, st') => option_map (app ts) (lex st' s')
      end
  end.

(** The array index a property key denotes: a canonical decimal numeral
    below [2^32 - 1]. *)
Definition integer_key (k : jsstring) : option Z :=
  match span_digits k with
  | (d :: ds, []) =>
      if (d =? 0)%Z && negb (Nat.eqb (List.length ds) 0) then None
      else if (digits_value (d :: ds) <? 4294967295)%Z
           then Some (digits_value (d :: ds))
           else None
  | _ => None
  end.

Fixpoint has_own (props : properties) (k : jsstring) : bool :=
  match props with
  | [] => false
  | (k', _) :: rest => str_eqb k' k || has_own rest k
  end.

Fixpoint replace_own (props : properties) (k : jsstring) (v : value)
  : properties :=
  match props with
  | [] => []
  | (k', v') :: rest =>
      if str_eqb k' k then (k', v) :: rest
      else (k', v') :: replace_own rest k v
  end.

(** A new property whose key is the index [n] goes after the indices
    below [n], before the other properties. *)
Fixpoint insert_index (props : properties) (n : Z) (k : jsstring) (v : value)
  : properties :=
  match props with
  | [] => [(k, v)]
  | (k', v') :: rest =>
      match integer_key k' with
      | Some n' =>
          if (n' <? n)%Z then (k', v') :: insert_index rest n k v
          else (k, v) :: props
      | None => (k, v) :: props
      end
  end.

(** [CreateDataProperty].  A key already present keeps its place and
    takes the new value.  A new key is enumerated with the indices, in
    ascending order, when it is one, and after every other property
    otherwise. *)
Definition define_own (props : properties) (k : jsstring) (v : value)
  : properties :=
  if has_own props k then replace_own props k v
  else
    match integer_key k with
    | Some n => insert_index props n k v
    | None => props ++ [(k, v)]
    end.

(** The parser is a pushdown automaton over the tokens.  A frame is an
    array or an object under construction; an object frame remembers the
    key whose value is awaited. *)
Inductive frame :=
| FArray (elems : list value)
| FObject (props : properties) (key : option jsstring).

Inductive parse_mode :=
| PValue
| PValueOrClose
| PKeyOrClose
| PKey
| PColon
| PAfter
| PDone (v : value).

Definition parse_state : Type := parse_mode * list frame.

(** A complete value goes to the innermost open container. *)
Definition push_value (v : value) (stack : list frame) : option parse_state :=
  match stack with
  | [] => Some (PDone v, [])
  | FArray es :: st => Some (PAfter, FArray (v :: es) :: st)
  | FObject ps (Some k) :: st =>
      Some (PAfter, FObject (define_own ps k v) None :: st)
  | FObject _ None :: _ => None
  end.

Definition parse_value_start (t : token) (stack : list frame)
  : option parse_state :=
  match t with
  | TLBrace => Some (PKeyOrClose, FObject [] None :: stack)
  | TLBracket => Some (PValueOrClose, FArray [] :: stack)
  | TString s => push_value (JString s) stack
  | TNumber x => push_value (JNumber x) stack
  | TTrue => push_value (JBool true) stack
  | TFalse => push_value (JBool false) stack
  | TNull => push_value JNull stack
  | _ => None
  end.

Definition parse_key (t : token) (stack : list frame) : option parse_state :=
  match t, stack with
  | TString k, FObject ps None :: st => Some (PColon, FObject ps (Some k) :: st)
  | _, _ => None
  end.

Definition parse_close (t : token) (stack : list frame) : option parse_state :=
  match t, stack with
  | TRBracket, FArray es :: st => push_value (JArray (rev es)) st
  | TRBrace, FObject ps None :: st => push_value (JObject ps) st
  | _, _ => None
  end.

Definition parse_step (ps : parse_state) (t : token) : option parse_state :=
  let (mode, stack) := ps in
  match mode with
  | PValue => parse_value_start t stack
  | PValueOrClose =>
      match t with
      | TRBracket => parse_close t stack
      | _ => parse_value_start t stack
      end
  | PKeyOrClose =>
      match t with
      | TRBrace => parse_close t stack
      | _ => parse_key t stack
      end
  | PKey => parse_key t stack
  | PColon =>
      match t with
      | TColon => Some (PValue, stack)
      | _ => None
      end
  | PAfter =>
      match t, stack with
      | TComma, FArray _ :: _ => Some (PValue, stack)
      | TComma, FObject _ None :: _ => Some (PKey, stack)
      | _, _ => parse_close t stack
      end
  | PDone _ => None
  end.

Fixpoint parse_tokens (ps : parse_state) (ts : list token)
  : option parse_state :=
  match ts with
  | [] => Some ps
  | t :: ts' =>
      match parse_step ps t with
      | None => None
      | Some ps' => parse_tokens ps' ts'
      end
  end.

(** [JSON.parse] on a string: [None] stands for the [SyntaxError]. *)
Definition JSON_parse (text : jsstring) : option value :=
  match lex LIdle text with
  | None => None
  | Some ts =>
      match parse_tokens (PValue, []) ts with
      | Some (PDone v, _) => Some v
      | _ => None
      end
  end.

(** ** Coercions and property access *)

Definition ToBoolean (v : value) : bool :=
  match v with
  | JUndefined | JNull => false
  | JBool b => b
  | JNumber x => number_truthy x
  | JString s => negb (Nat.eqb (List.length s) 0)
  | JArray _ | JObject _ => true
  end.

Definition nullish (v : value) : bool :=
  match v with
  | JUndefined | JNull => true
  | _ => false
  end.

Definition Array_isArray (v : value) : bool :=
  match v with
  | JArray _ => true
  | _ => false
  end.

(** [ToString], in a runtime whose call stack holds the conversion of
    arrays nested up to [depth] deep.  An object is converted by its
    [toString] method: the inherited one answers [[object Object]],
    unless an own property hides it; an own property is never callable
    here, and the inherited [valueOf] returns the object itself, so the
    conversion then fails with a [TypeError].  An array is converted by
    [join]: its elements separated by commas, [undefined] and [null] as
    the empty string; [join] converts each element in turn, so that an
    array inside an array takes one more level of the stack, and an
    array nested deeper than the stack holds ends in a [RangeError]. *)
Fixpoint ToString_within (depth : nat) (v : value) {struct v}
  : completion jsstring :=
  match v with
  | JUndefined => Normal (js "undefined")
  | JNull => Normal (js "null")
  | JBool b => Normal (if b then js "true" else js "false")
  | JNumber x => Normal (Number_toString x)
  | JString s => Normal s
  | JArray elems =>
      match depth with
      | O => Throw RangeError
      | S depth' =>
          (fix join (first : bool) (l : list value) : completion jsstring :=
             match l with
             | [] => Normal []
             | e :: l' =>
                 match (if nullish e then Normal []
                        else ToString_within depth' e) with
                 | Throw t => Throw t
                 | Normal s =>
                     match join false l' with
                     | Throw t => Throw t
                     | Normal r =>
                         Normal ((if first then [] else js ",") ++ s ++ r)
                     end
                 end
             end) true elems
      end
  | JObject props =>
      match get_own props (js "toString") with
      | Some _ => Throw TypeError
      | None => Normal (js "[object Object]")
      end
  end.

(** A runtime for the examples: arrays nested up to a thousand deep are
    converted. *)
Definition test_depth : nat := 1000.

Section Runtime.

(** The depth of nested arrays that the runtime converts to a string: a
    limit of the engine, not of the program. *)
Variable stack_depth : nat.

Definition ToString (v : value) : completion jsstring :=
  ToString_within stack_depth v.

(** The index a property key denotes, if it is a canonical one. *)
Definition array_index (k : jsstring) : option nat :=
  match span_digits k with
  | (d :: ds, []) =>
      if (d =? 0)%Z && negb (Nat.eqb (List.length ds) 0) then None
      else Some (Z.to_nat (digits_value (d :: ds)))
  | _ => None
  end.

(** [v[k]] for [v] neither [undefined] nor [null], and [k] not the name of
    a built-in method (the handler reads [quotes], [choices], [0],
    [message] and [content]). *)
Definition Get (v : value) (k : jsstring) : value :=
  match v with
  | JObject props =>
      match get_own props k with
      | Some x => x
      | None => JUndefined
      end
  | JArray elems =>
      if str_eqb k (js "length") then JNumber (of_nat (List.length elems))
      else
        match array_index k with
        | Some i => nth i elems JUndefined
        | None => JUndefined
        end
  | JString s =>
      if str_eqb k (js "length") then JNumber (of_nat (List.length s))
      else
        match array_index k with
        | Some i =>
            match nth_error s i with
            | Some c => JString [c]
            | None => JUndefined
            end
        | None => JUndefined
        end
  | _ => JUndefined
  end.

(** [v.k]: reading a property of [undefined] or [null] throws. *)
Definition member (v : value) (k : jsstring) : completion value :=
  if nullish v then Throw TypeError else Normal (Get v k).

(** [v?.k] *)
Definition optional_member (v : value) (k : jsstring) : value :=
  if nullish v then JUndefined else Get v k.

(** ** String and array methods *)

Fixpoint is_prefix (p s : jsstring) : bool :=
  match p, s with
  | [], _ => true
  | x :: p', y :: s' => N.eqb x y && is_prefix p' s'
  | _ :: _, [] => false
  end.

Fixpoint indexOf_from (i : Z) (s search : jsstring) : Z :=
  if is_prefix search s then i
  else
    match s with
    | [] => (-1)%Z
    | _ :: s' => indexOf_from (i + 1) s' search
    end.

Fixpoint lastIndexOf_from (i : Z) (s search : jsstring) (found : Z) : Z :=
  let found' := if is_prefix search s then i else found in
  match s with
  | [] => found'
  | _ :: s' => lastIndexOf_from (i + 1) s' search found'
  end.

(** [String.prototype.indexOf], [lastIndexOf] and [substring]. *)
Definition indexOf (s search : jsstring) : Z := indexOf_from 0 s search.

Definition lastIndexOf (s search : jsstring) : Z :=
  lastIndexOf_from 0 s search (-1).

Definition substring (s : jsstring) (start finish : Z) : jsstring :=
  let len := Z.of_nat (List.length s) in
  let a := Z.min (Z.max start 0) len in
  let b := Z.min (Z.max finish 0) len in
  let from := Z.min a b in
  let to := Z.max a b in
  firstn (Z.to_nat (to - from)) (skipn (Z.to_nat from) s).

(** [===] against a string. *)
Definition is_string (v : value) (s : jsstring) : bool :=
  match v with
  | JString s' => str_eqb s' s
  | _ => false
  end.

Fixpoint array_indexOf_from (i : Z) (l : list value) (s : jsstring) : Z :=
  match l with
  | [] => (-1)%Z
  | v :: l' => if is_string v s then i else array_indexOf_from (i + 1) l' s
  end.

Fixpoint array_lastIndexOf_from (i : Z) (l : list value) (s : jsstring)
                                (found : Z) : Z :=
  match l with
  | [] => found
  | v :: l' =>
      array_lastIndexOf_from (i + 1) l' s (if is_string v s then i else found)
  end.

(** [v.indexOf(s)]: strings and arrays have the method, nothing else. *)
Definition call_indexOf (v : value) (s : jsstring) : completion Z :=
  match v with
  | JString text => Normal (indexOf text s)
  | JArray l => Normal (array_indexOf_from 0 l s)
  | _ => Throw TypeError
  end.

Definition call_lastIndexOf (v : value) (s : jsstring) : completion Z :=
  match v with
  | JString text => Normal (lastIndexOf text s)
  | JArray l => Normal (array_lastIndexOf_from 0 l s (-1))
  | _ => Throw TypeError
  end.

(** [v.substring(a, b)]: only strings have the method. *)
Definition call_substring (v : value) (a b : Z) : completion value :=
  match v with
  | JString text => Normal (JString (substring text a b))
  | _ => Throw TypeError
  end.

(** [JSON.parse(v)]: the argument is converted to a string first. *)
Definition call_JSON_parse (v : value) : completion value :=
  match ToString v with
  | Throw e => Throw e
  | Normal text =>
      match JSON_parse text with
      | Some x => Normal x
      | None => Throw (SyntaxError text)
      end
  end.

(** The elements of an array ([quotes.length], [quotes.slice]). *)
Definition elements (v : value) : list value :=
  match v with
  | JArray l => l
  | _ => []
  end.

(** [l.slice(0, n)] *)
Definition slice_from_start (n : nat) (l : list value) : list value :=
  firstn n l.

(** ** The world: the completion API and the console *)

Inductive outcome :=
| Resolves (response : value)
| Rejects (reason : thrown).

(** [api] answers a request given the requests made before it; [calls]
    are those requests, oldest first; [console] is what [console.error]
    was given. *)
Record World := {
  api : list value -> value -> outcome;
  calls : list value;
  console : list thrown
}.

(** A computation that reads and changes the world and may throw. *)
Definition M (A : Type) : Type := World -> completion A * World.

Definition ret {A} (a : A) : M A := fun w => (Normal a, w).

Definition throw {A} (e : thrown) : M A := fun w => (Throw e, w).

Definition lift {A} (c : completion A) : M A := fun w => (c, w).

Definition bind {A B} (m : M A) (k : A -> M B) : M B :=
  fun w =>
    match m w with
    | (Normal a, w') => k a w'
    | (Throw e, w') => (Throw e, w')
    end.

Definition try_catch {A} (body : M A) (handler : thrown -> M A) : M A :=
  fun w =>
    match body w with
    | (Normal a, w') => (Normal a, w')
    | (Throw e, w') => handler e w'
    end.

Declare Scope js_scope.
Delimit Scope js_scope with js.
Notation "x <- m ;; k" := (bind m (fun x => k))
  (at level 61, m at next level, right associativity) : js_scope.
Notation "m ;; k" := (bind m (fun _ => k))
  (at level 61, right associativity) : js_scope.
Open Scope js_scope.

(** [await openai.chat.completions.create(request)] *)
Definition openai_chat_completions_create (request : value) : M value :=
  fun w =>
    ((match api w (calls w) request with
      | Resolves response => Normal response
      | Rejects reason => Throw reason
      end),
     {| api := api w; calls := calls w ++ [request]; console := console w |}).

(** [console.error('Error analyzing quote:', error)] *)
Definition console_error (error : thrown) : M unit :=
  fun w =>
    (Normal tt,
     {| api := api w; calls := calls w; console := console w ++ [error] |}).

(** ** [src/server.js] *)

Definition dq : jsstring := [34%N].

Definition SYSTEM_PROMPT : jsstring :=
  js "You are an assistant that analyzes famous quotes. For each quote you will produce a JSON object with the following keys: "
  ++ dq ++ js "sentiment" ++ dq ++ js ", "
  ++ dq ++ js "intensity" ++ dq ++ js ", "
  ++ dq ++ js "complexity" ++ dq ++ js ", "
  ++ dq ++ js "agency" ++ dq
  ++ js " (all numbers between 0 and 1), and "
  ++ dq ++ js "themes" ++ dq
  ++ js " (an array of exactly three concise one-word themes). Output only valid JSON. Do not include any explanatory text.".

(** The template literal of the user message, its hole filled. *)
Definition user_prompt (quote : jsstring) : jsstring :=
  js "Analyze the following quote and return the JSON object. Quote: "
  ++ dq ++ quote ++ dq.

Definition messages (quote : jsstring) : value :=
  JArray
    [ JObject [ (js "role", JString (js "system"));
                (js "content", JString SYSTEM_PROMPT) ];
      JObject [ (js "role", JString (js "user"));
                (js "content", JString (user_prompt quote)) ] ].

(** The argument of [openai.chat.completions.create]. *)
Definition chat_request (quote : jsstring) : value :=
  JObject
    [ (js "model", JString (js "gpt-4o"));
      (js "messages", messages quote);
      (js "max_tokens", JNumber (of_decimal false 200 0));
      (js "temperature", JNumber (of_decimal false 5 (-1)));
      (js "response_format",
       JObject [ (js "type", JString (js "json_object")) ]) ].

(** [response.choices?.[0]?.message?.content] *)
Definition response_content (response : value) : completion value :=
  match member response (js "choices") with
  | Throw e => Throw e
  | Normal choices =>
      Normal (optional_member
                (optional_member (optional_member choices (js "0"))
                                 (js "message"))
                (js "content"))
  end.

(** The [catch (err)] block of the inner [try]. *)
Definition extract_braces (content : value) (err : thrown) : M value :=
  firstBrace <- lift (call_indexOf content (js "{")) ;;
  lastBrace <- lift (call_lastIndexOf content (js "}")) ;;
  if ((firstBrace >=? 0) && (lastBrace >? firstBrace))%Z then
    substring <- lift (call_substring content firstBrace (lastBrace + 1)) ;;
    lift (call_JSON_parse substring)
  else throw err.

(** [analyzeQuote(quote)]: the parsed object, or [null] after an error.
    The messages are built before the [try] block is entered. *)
Definition analyzeQuote (quote : value) : M value :=
  text <- lift (ToString quote) ;;
  let request := chat_request text in
  try_catch
    (response <- openai_chat_completions_create request ;;
     content <- lift (response_content response) ;;
     if negb (ToBoolean content) then
       throw (Error (js "Empty response from OpenAI"))
     else
       parsed <- try_catch (lift (call_JSON_parse content))
                           (extract_braces content) ;;
       ret parsed)
    (fun error => console_error error ;; ret JNull).

Record http_response := {
  status : N;
  body : value
}.

Definition success_entry (quote analysis : value) : value :=
  JObject [ (js "quote", quote); (js "analysis", analysis) ].

Definition failure_entry (quote : value) : value :=
  JObject [ (js "quote", quote);
            (js "error", JString (js "Failed to analyze quote")) ].

(** The body of the [for] loop: one quote analysed, one entry pushed. *)
Definition analyze_item (results : list value) (quote : value)
  : M (list value) :=
  analysis <- analyzeQuote quote ;;
  if ToBoolean analysis then ret (results ++ [success_entry quote analysis])
  else ret (results ++ [failure_entry quote]).

(** [for (const quote of limitedQuotes) { ... }] *)
Fixpoint for_of (limitedQuotes : list value) (results : list value)
  : M (list value) :=
  match limitedQuotes with
  | [] => ret results
  | quote :: rest =>
      results' <- analyze_item results quote ;;
      for_of rest results'
  end.

Definition bad_request : http_response :=
  {| status := 400;
     body := JObject [ (js "error",
                        JString (js "Please provide an array of quotes.")) ] |}.

Definition ok_response (results : list value) : http_response :=
  {| status := 200; body := JObject [ (js "results", JArray results) ] |}.

(** The handler of [POST /api/analyze], applied to [req.body]. *)
Definition analyze_handler (req_body : value) : M http_response :=
  quotes <- lift (member req_body (js "quotes")) ;;
  if negb (ToBoolean quotes) || negb (Array_isArray quotes)
     || Nat.eqb (List.length (elements quotes)) 0
  then ret bad_request
  else
    let limitedQuotes := slice_from_start 2 (elements quotes) in
    results <- for_of limitedQuotes [] ;;
    ret (ok_response results).

(** [a || b] *)
Definition logical_or (a b : value) : value :=
  if ToBoolean a then a else b.

(** A variable of [process.env]: a string, or [undefined] when unset. *)
Definition env_value (v : option jsstring) : value :=
  match v with
  | Some s => JString s
  | None => JUndefined
  end.

(** [const port = process.env.PORT || 3000] *)
Definition port (PORT : option jsstring) : value :=
  logical_or (env_value PORT) (JNumber (of_decimal false 3000 0)).

(** The message the callback of [app.listen] gives to [console.log]. *)
Definition listening_message (PORT : option jsstring) : completion jsstring :=
  match ToString (port PORT) with
  | Normal text =>
      Normal (js "Quote Geometry app listening at http://localhost:" ++ text)
  | Throw e => Throw e
  end.

(** ** Vocabulary of the statements *)

(** The two parse attempts on the content of a response. *)
Definition parse_or_extract (content : value) : completion value :=
  match call_JSON_parse content with
  | Normal parsed => Normal parsed
  | Throw err =>
      match call_indexOf content (js "{") with
      | Throw e => Throw e
      | Normal firstBrace =>
          match call_lastIndexOf content (js "}") with
          | Throw e => Throw e
          | Normal lastBrace =>
              if ((firstBrace >=? 0) && (lastBrace >? firstBrace))%Z then
                match call_substring content firstBrace (lastBrace + 1) with
                | Throw e => Throw e
                | Normal sub => call_JSON_parse sub
                end
              else Throw err
          end
      end
  end.

(** What the [try] block of [analyzeQuote] makes of the API's answer. *)
Definition attempt (o : outcome) : completion value :=
  match o with
  | Rejects reason => Throw reason
  | Resolves r =>
      match response_content r with
      | Throw e => Throw e
      | Normal content =>
          if negb (ToBoolean content)
          then Throw (Error (js "Empty response from OpenAI"))
          else parse_or_extract content
      end
  end.

Definition analysis_of (o : outcome) : value :=
  match attempt o with
  | Normal parsed => parsed
  | Throw _ => JNull
  end.

Definition item_entry (quote : value) (o : outcome) : value :=
  if ToBoolean (analysis_of o) then success_entry quote (analysis_of o)
  else failure_entry quote.

(** The world once [request] has been answered by [o]. *)
Definition after (w : World) (request : value) (o : outcome) : World :=
  {| api := api w;
     calls := calls w ++ [request];
     console := match attempt o with
                | Normal _ => console w
                | Throw e => console w ++ [e]
                end |}.

(** The requests the analyzer sends for a list of quotes. *)
Definition request_for (quote : value) : list value :=
  match ToString quote with
  | Normal text => [chat_request text]
  | Throw _ => []
  end.

Definition requests_for (quotes : list value) : list value :=
  flat_map request_for quotes.

(** The answer to the call made for the quote at index [i] of [quotes],
    whose text is [text], in a handler started in [w]. *)
Definition answer_at (w : World) (quotes : list value) (i : nat)
                     (text : jsstring) : outcome :=
  api w (calls w ++ requests_for (firstn i quotes)) (chat_request text).

Definition coercible (v : value) : Prop :=
  exists text, ToString v = Normal text.

(** A stub whose answer depends on the request alone. *)
Definition deterministic (f : list value -> value -> outcome) : Prop :=
  forall h h' request, f h request = f h' request.

(** The handler answers 200 with [results], leaving the world [w']. *)
Definition responds (w : World) (req_body : value)
                    (results : list value) (w' : World) : Prop :=
  analyze_handler req_body w = (Normal (ok_response results), w').

(** The first character of a string is an opening brace. *)
Definition starts_with_brace (s : jsstring) : bool :=
  match s with
  | c :: _ => (c =? 123)%N
  | [] => false
  end.

Definition is_object (v : value) : bool :=
  match v with
  | JObject _ => true
  | _ => false
  end.

(** The outermost open container is an object. *)
Fixpoint rooted_in_object (stack : list frame) : bool :=
  match stack with
  | [] => false
  | f :: st =>
      match st with
      | [] => match f with FObject _ _ => true | FArray _ => false end
      | _ :: _ => rooted_in_object st
      end
  end.

Definition object_state (ps : parse_state) : bool :=
  match ps with
  | (PDone v, _) => is_object v
  | (_, stack) => rooted_in_object stack
  end.

(** The answer [o] is a response whose first choice has [content]. *)
Definition has_content (o : outcome) (content : value) : Prop :=
  exists r, o = Resolves r /\ response_content r = Normal content.

(** The call is rejected, or its response has no content. *)
Definition fails_to_answer (o : outcome) : Prop :=
  (exists reason, o = Rejects reason)
  \/ (exists r, o = Resolves r
                /\ forall content, response_content r = Normal content ->
                                   ToBoolean content = false).

(** Whenever the call made for a quote is answered as [P] says,
    [analyzeQuote] returns [analysis] and the entry of that quote is
    [entry quote]: in the loop body, and at the quote's index in the
    [results] of the response. *)
Definition every_item (P : outcome -> Prop) (analysis : value)
                      (entry : value -> value) : Prop :=
  (forall w results quote text,
      ToString quote = Normal text ->
      P (api w (calls w) (chat_request text)) ->
      fst (analyzeQuote quote w) = Normal analysis
      /\ fst (analyze_item results quote w)
         = Normal (results ++ [entry quote]))
  /\
  (forall w req_body quotes i quote text,
      Get req_body (js "quotes") = JArray quotes ->
      Forall coercible (firstn 2 quotes) ->
      i < 2 -> nth_error quotes i = Some quote ->
      ToString quote = Normal text ->
      P (answer_at w quotes i text) ->
      exists rs w',
        responds w req_body rs w' /\ nth_error rs i = Some (entry quote)).

(** There is no opening brace, or the last closing brace is not after
    it. *)
Definition no_brace_pair (text : jsstring) : Prop :=
  (indexOf text (js "{") < 0
   \/ lastIndexOf text (js "}") <= indexOf text (js "{"))%Z.

(** The text from the first opening brace to the last closing brace. *)
Definition braced (text : jsstring) : jsstring :=
  substring text (indexOf text (js "{")) (lastIndexOf text (js "}") + 1).

(** [text] is not JSON, but what its outermost braces enclose is. *)
Definition parses_by_extraction (text : jsstring) (parsed : value) : Prop :=
  JSON_parse text = None
  /\ (0 <= indexOf text (js "{"))%Z
  /\ (indexOf text (js "{") < lastIndexOf text (js "}"))%Z
  /\ JSON_parse (braced text) = Some parsed.

Definition parses_to (text : jsstring) (parsed : value) : Prop :=
  JSON_parse text = Some parsed \/ parses_by_extraction text parsed.

(** The handler answers 200 with [min(N, 2)] entries after as many calls
    to the API. *)
Definition processes_first_two (w : World) (req_body : value)
                               (quotes : list value) : Prop :=
  exists rs w',
    responds w req_body rs w'
    /\ List.length rs = Nat.min (List.length quotes) 2
    /\ List.length (calls w')
       = List.length (calls w) + Nat.min (List.length quotes) 2.

(** The handler answers 200, and the entry at each index has one of the
    two shapes and carries the quote of that index. *)
Definition echoes_quotes (w : World) (req_body : value)
                         (quotes : list value) : Prop :=
  exists rs w',
    responds w req_body rs w'
    /\ forall i q,
         i < Nat.min (List.length quotes) 2 -> nth_error quotes i = Some q ->
         exists entry,
           nth_error rs i = Some entry
           /\ Get entry (js "quote") = q
           /\ (entry = failure_entry q
               \/ exists analysis, entry = success_entry q analysis).

(** The handler answers 200 with one entry per processed quote; an item
    whose call fails gets the failure entry, and every entry depends on
    its own quote and on the answer to its own call only. *)
Definition failures_contained (w : World) (req_body : value)
                              (quotes : list value) : Prop :=
  exists rs w',
    responds w req_body rs w'
    /\ List.length rs = Nat.min (List.length quotes) 2
    /\ forall i q text,
         i < 2 -> nth_error quotes i = Some q -> ToString q = Normal text ->
         nth_error rs i = Some (item_entry q (answer_at w quotes i text))
         /\ (fails_to_answer (answer_at w quotes i text) ->
             nth_error rs i = Some (failure_entry q)).

(** Each of the first two elements is sent to the API inside the user
    message, converted to a string, and comes back as the [quote] of its
    entry. *)
Definition passes_and_echoes (w : World) (req_body : value)
                             (quotes : list value) : Prop :=
  exists rs w',
    responds w req_body rs w'
    /\ forall i q,
         i < 2 -> nth_error quotes i = Some q ->
         exists text sent entry,
           ToString q = Normal text
           /\ nth_error (calls w') (List.length (calls w) + i) = Some sent
           /\ Get (Get (Get sent (js "messages")) (js "1")) (js "content")
              = JString (js "Analyze the following quote and return the JSON object. Quote: "
                         ++ dq ++ text ++ dq)
           /\ nth_error rs i = Some entry
           /\ Get entry (js "quote") = q.

(** The entry has an [error] property. *)
Definition has_error (entry : value) : bool :=
  match Get entry (js "error") with
  | JUndefined => false
  | _ => true
  end.

(** The content of the user message of a request. *)
Definition sent_text (request : value) : value :=
  Get (Get (Get request (js "messages")) (js "1")) (js "content").

(** The test of the inner [catch] block: a first opening brace, and a
    last closing brace after it. *)
Definition brace_pair (text : jsstring) : bool :=
  ((indexOf text (js "{") >=? 0)
   && (lastIndexOf text (js "}") >? indexOf text (js "{")))%Z.

(** ** Test doubles and the examples of the specification *)

Definition reply (content : value) : value :=
  JObject
    [ (js "choices",
       JArray [ JObject [ (js "message",
                           JObject [ (js "content", content) ]) ] ]) ].

(** An API that answers every request with the same content. *)
Definition stub (content : value) : World :=
  {| api := fun _ _ => Resolves (reply content); calls := []; console := [] |}.

(** An API that cannot be reached. *)
Definition unreachable : World :=
  {| api := fun _ _ => Rejects (Error (js "network failure"));
     calls := []; console := [] |}.

Definition request_with (quotes : list value) : value :=
  JObject [ (js "quotes", JArray quotes) ].

Definition quoted (s : string) : jsstring := dq ++ js s ++ dq.

Definition themes (a b c : string) : value :=
  JArray [ JString (js a); JString (js b); JString (js c) ].

Definition strict_text : jsstring :=
  js "{" ++ quoted "sentiment" ++ js ":0.8,"
  ++ quoted "intensity" ++ js ":0.6,"
  ++ quoted "complexity" ++ js ":0.4,"
  ++ quoted "agency" ++ js ":0.7,"
  ++ quoted "themes" ++ js ":["
  ++ quoted "love" ++ js "," ++ quoted "loss" ++ js "," ++ quoted "hope"
  ++ js "]}".

Definition strict_analysis : value :=
  JObject
    [ (js "sentiment", JNumber (of_decimal false 8 (-1)));
      (js "intensity", JNumber (of_decimal false 6 (-1)));
      (js "complexity", JNumber (of_decimal false 4 (-1)));
      (js "agency", JNumber (of_decimal false 7 (-1)));
      (js "themes", themes "love" "loss" "hope") ].

Definition wrapped_text : jsstring :=
  js "Sure! {" ++ quoted "sentiment" ++ js ":0.5,"
  ++ quoted "intensity" ++ js ":0.5,"
  ++ quoted "complexity" ++ js ":0.5,"
  ++ quoted "agency" ++ js ":0.5,"
  ++ quoted "themes" ++ js ":["
  ++ quoted "a" ++ js "," ++ quoted "b" ++ js "," ++ quoted "c"
  ++ js "]} Hope that helps!".

Definition wrapped_analysis : value :=
  JObject
    [ (js "sentiment", JNumber (of_decimal false 5 (-1)));
      (js "intensity", JNumber (of_decimal false 5 (-1)));
      (js "complexity", JNumber (of_decimal false 5 (-1)));
      (js "agency", JNumber (of_decimal false 5 (-1)));
      (js "themes", themes "a" "b" "c") ].

(** An object whose own [toString] property hides the inherited method:
    [{"toString": v}]. *)
Definition hides_toString (v : value) : value :=
  JObject [ (js "toString", v) ].

(** * Properties *)

(** ** The runtime on examples *)

Example JSON_parse_examples :
  JSON_parse (js " [1, true, null, -0.5e1] ")
  = Some (JArray [ JNumber (of_decimal false 1 0); JBool true; JNull;
                   JNumber (of_decimal true 5 0) ])
  /\ JSON_parse (js "{" ++ quoted "a" ++ js ":1," ++ quoted "a" ++ js ":[]}")
     = Some (JObject [ (js "a", JArray []) ])
  /\ JSON_parse (js "") = None
  /\ JSON_parse (js "{") = None
  /\ JSON_parse (js "[1,]") = None
  /\ JSON_parse (js "01") = None
  /\ JSON_parse (js "undefined") = None
  /\ JSON_parse (js "1 2") = None.
Proof. repeat split; vm_compute; reflexivity. Qed.

Example brace_search_examples :
  indexOf wrapped_text (js "{") = 6%Z
  /\ lastIndexOf wrapped_text (js "}") = 91%Z
  /\ indexOf (js "[1]") (js "{") = (-1)%Z
  /\ substring (js "abcdef") 4 2 = js "cd"
  /\ substring (js "abcdef") (-3) 99 = js "abcdef".
Proof. repeat split; vm_compute; reflexivity. Qed.

(** Keys that are array indices are enumerated first, in ascending
    order, whatever their place in the text; a repeated key keeps its
    place and takes the last value. *)
Example JSON_parse_key_order :
  JSON_parse (js "{" ++ quoted "b" ++ js ":1," ++ quoted "10" ++ js ":2,"
              ++ quoted "2" ++ js ":3," ++ quoted "01" ++ js ":4,"
              ++ quoted "b" ++ js ":5}")
  = Some (JObject [ (js "2", JNumber (of_decimal false 3 0));
                    (js "10", JNumber (of_decimal false 2 0));
                    (js "b", JNumber (of_decimal false 5 0));
                    (js "01", JNumber (of_decimal false 4 0)) ]).
Proof. vm_compute. reflexivity. Qed.

(** ** The parser on a text that opens with a brace *)

Lemma rooted_cons (f : frame) (st : list frame) :
  rooted_in_object st = true -> rooted_in_object (f :: st) = true.
Proof.
  destruct st as [|g st]; simpl; [discriminate | auto].
Qed.

Lemma rooted_tail (f g : frame) (st : list frame) :
  rooted_in_object (f :: g :: st) = rooted_in_object (g :: st).
Proof. reflexivity. Qed.

Lemma push_value_rooted (v : value) (st : list frame) (ps : parse_state) :
  rooted_in_object st = true ->
  push_value v st = Some ps -> object_state ps = true.
Proof.
  intros Hr Hp. destruct st as [|f st]; [discriminate Hr|].
  destruct f as [es | props [k|]]; simpl in Hp; inversion Hp; subst; clear Hp.
  - destruct st; simpl in *; [discriminate | assumption].
  - destruct st; simpl in *; [reflexivity | assumption].
Qed.

Lemma parse_value_start_rooted (t : token) (st : list frame) (ps : parse_state) :
  rooted_in_object st = true ->
  parse_value_start t st = Some ps -> object_state ps = true.
Proof.
  intros Hr Hp.
  destruct t; simpl in Hp; try discriminate;
    try (eapply push_value_rooted; eassumption);
    inversion Hp; subst; simpl; destruct st; try discriminate; assumption.
Qed.

Lemma parse_key_rooted (t : token) (st : list frame) (ps : parse_state) :
  rooted_in_object st = true ->
  parse_key t st = Some ps -> object_state ps = true.
Proof.
  intros Hr Hp. unfold parse_key in Hp.
  destruct t; try discriminate.
  destruct st as [|[es | props [k|]] st]; try discriminate.
  inversion Hp; subst. simpl. destruct st; simpl in *; auto.
Qed.

Lemma parse_close_rooted (t : token) (st : list frame) (ps : parse_state) :
  rooted_in_object st = true ->
  parse_close t st = Some ps -> object_state ps = true.
Proof.
  intros Hr Hp. unfold parse_close in Hp.
  destruct t; try discriminate;
    destruct st as [|[es | props [k|]] st]; try discriminate.
  - destruct st as [|g st]; [inversion Hp; reflexivity|].
    eapply push_value_rooted; [|eassumption]. exact Hr.
  - destruct st as [|g st]; [discriminate Hr|].
    eapply push_value_rooted; [|eassumption]. exact Hr.
Qed.

Lemma parse_step_rooted (ps ps' : parse_state) (t : token) :
  object_state ps = true ->
  parse_step ps t = Some ps' -> object_state ps' = true.
Proof.
  intros Hr Hp. destruct ps as [mode st].
  destruct mode; simpl in Hr, Hp; try discriminate.
  - eapply parse_value_start_rooted; eassumption.
  - destruct t;
      solve [ eapply parse_value_start_rooted; eassumption
            | eapply parse_close_rooted; eassumption ].
  - destruct t;
      solve [ eapply parse_key_rooted; eassumption
            | eapply parse_close_rooted; eassumption ].
  - eapply parse_key_rooted; eassumption.
  - destruct t; try discriminate. inversion Hp; subst. exact Hr.
  - destruct t;
      try solve [ eapply parse_close_rooted; eassumption ].
    destruct st as [|[es | props [k|]] st]; try discriminate;
      inversion Hp; subst; exact Hr.
Qed.

Lemma parse_tokens_rooted (ts : list token) :
  forall ps ps', object_state ps = true ->
                 parse_tokens ps ts = Some ps' -> object_state ps' = true.
Proof.
  induction ts as [|t ts IH]; intros ps ps' Hr Hp; simpl in Hp.
  - inversion Hp; subst; exact Hr.
  - destruct (parse_step ps t) as [ps1|] eqn:Hs; [|discriminate].
    eapply IH; [|eassumption]. eapply parse_step_rooted; eassumption.
Qed.

(** A text that opens with a brace parses, when it does, to an object. *)
Lemma JSON_parse_brace (text : jsstring) (v : value) :
  starts_with_brace text = true ->
  JSON_parse text = Some v -> is_object v = true.
Proof.
  intros Hb Hp. destruct text as [|c text]; [discriminate Hb|].
  simpl in Hb. apply N.eqb_eq in Hb. subst c.
  unfold JSON_parse in Hp.
  change (lex LIdle (123%N :: text))
    with (option_map (app [TLBrace]) (lex LIdle text)) in Hp.
  destruct (lex LIdle text) as [ts|]; [|discriminate Hp].
  simpl in Hp.
  destruct (parse_tokens (PKeyOrClose, [FObject [] None]) ts)
    as [[mode st]|] eqn:Hts; [|discriminate Hp].
  apply parse_tokens_rooted in Hts; [|reflexivity].
  destruct mode; try discriminate Hp. inversion Hp; subst. exact Hts.
Qed.

Lemma is_object_truthy (v : value) : is_object v = true -> ToBoolean v = true.
Proof. destruct v; simpl; intros H; try discriminate H; reflexivity. Qed.

(** ** The substring between the braces *)

Lemma indexOf_from_range (s p : jsstring) :
  forall i, (0 <= i)%Z ->
            indexOf_from i s p = (-1)%Z \/ (i <= indexOf_from i s p)%Z.
Proof.
  induction s as [|y s IH]; intros i Hi; simpl.
  - destruct (is_prefix p []); [right; lia | left; reflexivity].
  - destruct (is_prefix p (y :: s)); [right; lia|].
    destruct (IH (i + 1)%Z) as [H|H]; [lia | left; exact H | right; lia].
Qed.

Lemma indexOf_from_found (c : code_unit) (s : jsstring) :
  forall i f, (0 <= i)%Z -> (i <= f)%Z ->
              indexOf_from i s [c] = f ->
              nth_error s (Z.to_nat (f - i)) = Some c.
Proof.
  induction s as [|y s IH]; intros i f Hi Hf Hx; simpl in Hx.
  - lia.
  - destruct (N.eqb c y) eqn:Hc; simpl in Hx.
    + subst f. rewrite Z.sub_diag. simpl. apply N.eqb_eq in Hc. congruence.
    + destruct (indexOf_from_range s [c] (i + 1)%Z) as [H|H]; [lia|lia|].
      rewrite Hx in H.
      replace (Z.to_nat (f - i)) with (S (Z.to_nat (f - (i + 1)))) by lia.
      simpl. apply IH; [lia | lia | exact Hx].
Qed.

Lemma substring_at (c : code_unit) (s : jsstring) (f l : Z) :
  (0 <= f)%Z -> (f < l)%Z ->
  nth_error s (Z.to_nat f) = Some c ->
  exists rest, substring s f (l + 1) = c :: rest.
Proof.
  intros Hf Hl Hn.
  destruct (nth_error_split s (Z.to_nat f) Hn) as [l1 [l2 [Hs Hlen]]].
  unfold substring.
  assert (Hlen_s : Z.of_nat (List.length s)
                   = (f + 1 + Z.of_nat (List.length l2))%Z).
  { rewrite Hs, length_app. simpl. lia. }
  set (len := Z.of_nat (List.length s)) in *.
  replace (Z.min (Z.max f 0) len) with f by lia.
  set (b := Z.min (Z.max (l + 1) 0) len).
  assert (Hb : (f + 1 <= b)%Z) by (unfold b; lia).
  replace (Z.min f b) with f by lia.
  replace (Z.max f b) with b by lia.
  replace (skipn (Z.to_nat f) s) with (c :: l2).
  - destruct (Z.to_nat (b - f)) as [|n] eqn:Hn'; [lia|].
    simpl. eexists; reflexivity.
  - rewrite Hs, <- Hlen, skipn_app, Nat.sub_diag, skipn_all. reflexivity.
Qed.

(** The text cut out by the fallback opens with the brace found. *)
Lemma substring_starts_with_brace (text : jsstring) :
  let firstBrace := indexOf text (js "{") in
  let lastBrace := lastIndexOf text (js "}") in
  (0 <= firstBrace)%Z -> (firstBrace < lastBrace)%Z ->
  starts_with_brace (substring text firstBrace (lastBrace + 1)) = true.
Proof.
  intros firstBrace lastBrace Hf Hl.
  assert (Hn : nth_error text (Z.to_nat firstBrace) = Some 123%N).
  { pose proof (@indexOf_from_found 123%N text 0%Z firstBrace) as H.
    rewrite Z.sub_0_r in H. apply H; [lia | lia | reflexivity]. }
  destruct (@substring_at 123%N text firstBrace lastBrace Hf Hl Hn)
    as [rest Hrest].
  rewrite Hrest. reflexivity.
Qed.

(** ** [analyzeQuote] and the loop body as functions of the answer *)

Lemma bind_run {A B} (m : M A) (k : A -> M B) (w : World) :
  bind m k w = match m w with
               | (Normal a, w') => k a w'
               | (Throw e, w') => (Throw e, w')
               end.
Proof. reflexivity. Qed.

Lemma try_catch_run {A} (m : M A) (h : thrown -> M A) (w : World) :
  try_catch m h w = match m w with
                    | (Normal a, w') => (Normal a, w')
                    | (Throw e, w') => h e w'
                    end.
Proof. reflexivity. Qed.

Lemma inner_try (content : value) (w : World) :
  try_catch (lift (call_JSON_parse content)) (extract_braces content) w
  = (parse_or_extract content, w).
Proof.
  unfold try_catch, extract_braces, parse_or_extract, bind, throw, lift.
  destruct (call_JSON_parse content) as [parsed | err]; [reflexivity|].
  destruct (call_indexOf content (js "{")) as [f | e]; [|reflexivity].
  destruct (call_lastIndexOf content (js "}")) as [l | e]; [|reflexivity].
  destruct ((f >=? 0)%Z && (l >? f)%Z); [|reflexivity].
  destruct (call_substring content f (l + 1)) as [sub | e]; reflexivity.
Qed.

Lemma analyzeQuote_throws (quote : value) (e : thrown) (w : World) :
  ToString quote = Throw e -> analyzeQuote quote w = (Throw e, w).
Proof.
  intros H. unfold analyzeQuote. rewrite bind_run. unfold lift.
  rewrite H. reflexivity.
Qed.

Lemma analyzeQuote_run (quote : value) (text : jsstring) (w : World) :
  ToString quote = Normal text ->
  analyzeQuote quote w
  = (Normal (analysis_of (api w (calls w) (chat_request text))),
     after w (chat_request text) (api w (calls w) (chat_request text))).
Proof.
  intros H. unfold analyzeQuote. rewrite bind_run. unfold lift at 1.
  rewrite H, try_catch_run, bind_run.
  unfold openai_chat_completions_create, after, analysis_of, attempt.
  destruct (api w (calls w) (chat_request text)) as [r | reason];
    [|reflexivity].
  rewrite bind_run. unfold lift at 1.
  destruct (response_content r) as [content | e]; [|reflexivity].
  destruct (negb (ToBoolean content)); [reflexivity|].
  rewrite bind_run, inner_try.
  destruct (parse_or_extract content); reflexivity.
Qed.

Lemma analyze_item_throws (results : list value) (quote : value)
                          (e : thrown) (w : World) :
  ToString quote = Throw e -> analyze_item results quote w = (Throw e, w).
Proof.
  intros H. unfold analyze_item, bind. rewrite (analyzeQuote_throws _ _ _ H).
  reflexivity.
Qed.

Lemma analyze_item_run (results : list value) (quote : value)
                       (text : jsstring) (w : World) :
  ToString quote = Normal text ->
  analyze_item results quote w
  = (Normal (results ++ [item_entry quote (api w (calls w) (chat_request text))]),
     after w (chat_request text) (api w (calls w) (chat_request text))).
Proof.
  intros H. unfold analyze_item, bind. rewrite (analyzeQuote_run _ _ _ H).
  unfold item_entry, ret.
  destruct (ToBoolean (analysis_of (api w (calls w) (chat_request text))));
    reflexivity.
Qed.

(** ** The loop *)

Lemma request_for_coerced (quote : value) (text : jsstring) :
  ToString quote = Normal text -> request_for quote = [chat_request text].
Proof. intros H. unfold request_for. rewrite H. reflexivity. Qed.

Lemma for_of_cons_run (quote : value) (rest results : list value)
                      (text : jsstring) (w : World) :
  ToString quote = Normal text ->
  for_of (quote :: rest) results w
  = for_of rest
      (results ++ [item_entry quote (api w (calls w) (chat_request text))])
      (after w (chat_request text) (api w (calls w) (chat_request text))).
Proof.
  intros H. simpl. rewrite bind_run, (analyze_item_run _ _ _ _ H). reflexivity.
Qed.

Lemma for_of_cons_throws (quote : value) (rest results : list value)
                         (e : thrown) (w : World) :
  ToString quote = Throw e ->
  for_of (quote :: rest) results w = (Throw e, w).
Proof.
  intros H. simpl. rewrite bind_run, (analyze_item_throws _ _ _ _ H). reflexivity.
Qed.

(** When every quote can be converted, the loop ends normally with one
    entry per quote, each a function of the quote and of the answer to
    its own call. *)
Lemma for_of_spec (quotes : list value) :
  forall results w,
    Forall coercible quotes ->
    exists rs w',
      for_of quotes results w = (Normal (results ++ rs), w')
      /\ List.length rs = List.length quotes
      /\ api w' = api w
      /\ calls w' = calls w ++ requests_for quotes
      /\ forall i q text,
           nth_error quotes i = Some q -> ToString q = Normal text ->
           nth_error rs i = Some (item_entry q (answer_at w quotes i text)).
Proof.
  induction quotes as [|quote rest IH]; intros results w Hc.
  - exists [], w. simpl. unfold ret. rewrite !app_nil_r.
    repeat split; try reflexivity.
    intros [|i] q text H; discriminate H.
  - inversion Hc as [|? ? [text Ht] Hrest]; subst.
    rewrite (for_of_cons_run _ _ _ _ _ Ht).
    set (o := api w (calls w) (chat_request text)).
    destruct (IH (results ++ [item_entry quote o])
                 (after w (chat_request text) o) Hrest)
      as [rs [w' [Hrun [Hlen [Hapi [Hcalls Hnth]]]]]].
    exists (item_entry quote o :: rs), w'.
    rewrite Hrun, <- app_assoc. simpl.
    repeat split.
    + rewrite Hlen. reflexivity.
    + exact Hapi.
    + rewrite Hcalls. simpl. rewrite (request_for_coerced _ _ Ht).
      rewrite <- app_assoc. reflexivity.
    + intros [|i] q text' Hq Hq'; simpl in Hq.
      * inversion Hq; subst q. rewrite Ht in Hq'. inversion Hq'; subst text'.
        simpl. unfold answer_at. simpl. rewrite app_nil_r. reflexivity.
      * simpl. rewrite (Hnth i q text' Hq Hq').
        unfold answer_at. simpl.
        rewrite (request_for_coerced _ _ Ht), <- app_assoc. reflexivity.
Qed.

(** The loop ends normally only if every quote can be converted. *)
Lemma for_of_normal_coercible (quotes : list value) :
  forall results w rs w',
    for_of quotes results w = (Normal rs, w') -> Forall coercible quotes.
Proof.
  induction quotes as [|quote rest IH]; intros results w rs w' H.
  - constructor.
  - destruct (ToString quote) as [text | e] eqn:Ht.
    + rewrite (for_of_cons_run _ _ _ _ _ Ht) in H.
      constructor; [exists text; exact Ht | eapply IH; exact H].
    + rewrite (for_of_cons_throws _ _ _ _ _ Ht) in H. discriminate H.
Qed.

Lemma for_of_api (quotes : list value) :
  forall results w, api (snd (for_of quotes results w)) = api w.
Proof.
  induction quotes as [|quote rest IH]; intros results w.
  - reflexivity.
  - destruct (ToString quote) as [text | e] eqn:Ht.
    + rewrite (for_of_cons_run _ _ _ _ _ Ht), IH. reflexivity.
    + rewrite (for_of_cons_throws _ _ _ _ _ Ht). reflexivity.
Qed.

Lemma for_of_deterministic (quotes : list value) :
  forall results w1 w2,
    api w1 = api w2 -> deterministic (api w1) ->
    fst (for_of quotes results w1) = fst (for_of quotes results w2).
Proof.
  induction quotes as [|quote rest IH]; intros results w1 w2 Hapi Hdet.
  - reflexivity.
  - destruct (ToString quote) as [text | e] eqn:Ht.
    + rewrite !(for_of_cons_run _ _ _ _ _ Ht).
      rewrite <- Hapi, (Hdet (calls w2) (calls w1)).
      apply IH; [simpl; exact Hapi | exact Hdet].
    + rewrite !(for_of_cons_throws _ _ _ _ _ Ht). reflexivity.
Qed.

(** ** The handler *)

Lemma Get_array_member (v : value) (k : jsstring) (l : list value) :
  Get v k = JArray l -> member v k = Normal (JArray l).
Proof.
  intros H. unfold member.
  destruct v; simpl in *; try discriminate H; rewrite H; reflexivity.
Qed.

Lemma handler_loop (req_body : value) (quotes : list value) (w : World) :
  Get req_body (js "quotes") = JArray quotes -> quotes <> [] ->
  analyze_handler req_body w
  = bind (for_of (firstn 2 quotes) []) (fun rs => ret (ok_response rs)) w.
Proof.
  intros Hq Hne. unfold analyze_handler. rewrite bind_run.
  unfold lift. rewrite (Get_array_member _ _ _ Hq).
  destruct quotes as [|q quotes]; [contradiction|]. reflexivity.
Qed.

Lemma firstn_firstn_le {A} (i j : nat) (l : list A) :
  i <= j -> firstn i (firstn j l) = firstn i l.
Proof.
  intros H. rewrite firstn_firstn. f_equal. lia.
Qed.

Lemma nth_error_firstn_lt {A} (i j : nat) (l : list A) :
  i < j -> nth_error (firstn j l) i = nth_error l i.
Proof.
  revert j l. induction i as [|i IH]; intros [|j] [|x l] H;
    try lia; try reflexivity.
  simpl. apply IH. lia.
Qed.

(** When the first two quotes can be converted, the handler answers 200
    with one entry for each of them. *)
Lemma handler_spec (req_body : value) (quotes : list value) (w : World) :
  Get req_body (js "quotes") = JArray quotes -> quotes <> [] ->
  Forall coercible (firstn 2 quotes) ->
  exists rs w',
    responds w req_body rs w'
    /\ List.length rs = Nat.min (List.length quotes) 2
    /\ api w' = api w
    /\ calls w' = calls w ++ requests_for (firstn 2 quotes)
    /\ forall i q text,
         i < 2 -> nth_error quotes i = Some q -> ToString q = Normal text ->
         nth_error rs i = Some (item_entry q (answer_at w quotes i text)).
Proof.
  intros Hq Hne Hc.
  destruct (for_of_spec _ [] w Hc) as [rs [w' [Hrun [Hlen [Hapi [Hcalls Hnth]]]]]].
  exists rs, w'. unfold responds.
  rewrite (handler_loop _ _ _ Hq Hne), bind_run, Hrun.
  repeat split; try assumption.
  - rewrite Hlen, length_firstn. lia.
  - intros i q text Hi Hn Ht.
    rewrite <- (nth_error_firstn_lt i 2 quotes Hi) in Hn.
    rewrite (Hnth i q text Hn Ht).
    unfold answer_at. rewrite firstn_firstn_le by lia. reflexivity.
Qed.

Lemma responds_coercible (req_body : value) (quotes rs : list value)
                         (w w' : World) :
  Get req_body (js "quotes") = JArray quotes -> quotes <> [] ->
  responds w req_body rs w' -> Forall coercible (firstn 2 quotes).
Proof.
  intros Hq Hne H. unfold responds in H.
  rewrite (handler_loop _ _ _ Hq Hne), bind_run in H.
  destruct (for_of (firstn 2 quotes) [] w) as [[rs0 | e] w0] eqn:Hrun;
    [|discriminate H].
  eapply for_of_normal_coercible. exact Hrun.
Qed.

Lemma handler_not_array (req_body : value) (w : World) :
  nullish req_body = false ->
  Array_isArray (Get req_body (js "quotes")) = false
  \/ Get req_body (js "quotes") = JArray [] ->
  analyze_handler req_body w = (Normal bad_request, w).
Proof.
  intros Hn Hq. unfold analyze_handler. rewrite bind_run.
  unfold lift, member. rewrite Hn.
  destruct Hq as [Hq | Hq]; rewrite Hq.
  - rewrite orb_true_r. reflexivity.
  - reflexivity.
Qed.

(** Whatever the body, the handler leaves the API as it found it, and
    against a deterministic API its result does not depend on the rest
    of the world. *)
Lemma handler_api (req_body : value) (w : World) :
  api (snd (analyze_handler req_body w)) = api w.
Proof.
  unfold analyze_handler. rewrite bind_run. unfold lift.
  destruct (member req_body (js "quotes")) as [quotes | e]; [|reflexivity].
  destruct (negb (ToBoolean quotes) || negb (Array_isArray quotes)
            || Nat.eqb (List.length (elements quotes)) 0); [reflexivity|].
  rewrite bind_run.
  pose proof (for_of_api (slice_from_start 2 (elements quotes)) [] w) as H.
  destruct (for_of (slice_from_start 2 (elements quotes)) [] w) as [[rs|e] w'];
    exact H.
Qed.

Lemma handler_deterministic (req_body : value) (w1 w2 : World) :
  api w1 = api w2 -> deterministic (api w1) ->
  fst (analyze_handler req_body w1) = fst (analyze_handler req_body w2).
Proof.
  intros Hapi Hdet. unfold analyze_handler. rewrite !bind_run. unfold lift.
  destruct (member req_body (js "quotes")) as [quotes | e]; [|reflexivity].
  destruct (negb (ToBoolean quotes) || negb (Array_isArray quotes)
            || Nat.eqb (List.length (elements quotes)) 0); [reflexivity|].
  rewrite !bind_run.
  pose proof (for_of_deterministic (slice_from_start 2 (elements quotes))
                                   [] w1 w2 Hapi Hdet) as H.
  destruct (for_of (slice_from_start 2 (elements quotes)) [] w1)
    as [[rs1|e1] w1'];
    destruct (for_of (slice_from_start 2 (elements quotes)) [] w2)
      as [[rs2|e2] w2'];
    simpl in H; try discriminate H; inversion H; reflexivity.
Qed.

Lemma requests_for_length (quotes : list value) :
  Forall coercible quotes ->
  List.length (requests_for quotes) = List.length quotes.
Proof.
  induction 1 as [|q l [text Ht] Hl IH]; [reflexivity|].
  simpl. rewrite (request_for_coerced _ _ Ht). simpl. rewrite IH. reflexivity.
Qed.

Lemma requests_for_nth (quotes : list value) :
  forall i q text,
    Forall coercible quotes ->
    nth_error quotes i = Some q -> ToString q = Normal text ->
    nth_error (requests_for quotes) i = Some (chat_request text).
Proof.
  induction quotes as [|q0 l IH]; intros i q text Hc Hn Ht.
  - destruct i; discriminate Hn.
  - inversion Hc as [|? ? [text0 Ht0] Hl]; subst.
    simpl. rewrite (request_for_coerced _ _ Ht0). simpl.
    destruct i as [|i]; simpl in Hn.
    + inversion Hn; subst. rewrite Ht in Ht0. inversion Ht0. reflexivity.
    + simpl. apply IH with (q := q); assumption.
Qed.

(** ** The entry of an item, case by case *)

Lemma parse_or_extract_string (text : jsstring) :
  parse_or_extract (JString text)
  = match JSON_parse text with
    | Some parsed => Normal parsed
    | None =>
        if ((indexOf text (js "{") >=? 0)
            && (lastIndexOf text (js "}") >? indexOf text (js "{")))%Z
        then match JSON_parse (braced text) with
             | Some parsed => Normal parsed
             | None => Throw (SyntaxError (braced text))
             end
        else Throw (SyntaxError text)
    end.
Proof.
  unfold parse_or_extract, call_JSON_parse, call_indexOf, call_lastIndexOf,
    call_substring, braced.
  unfold ToString. cbn [ToString_within].
  destruct (JSON_parse text); [reflexivity|].
  destruct ((indexOf text (js "{") >=? 0)
            && (lastIndexOf text (js "}") >? indexOf text (js "{")))%Z;
    reflexivity.
Qed.

Lemma attempt_content (o : outcome) (content : value) :
  has_content o content ->
  attempt o = if negb (ToBoolean content)
              then Throw (Error (js "Empty response from OpenAI"))
              else parse_or_extract content.
Proof.
  intros [r [Ho Hr]]. subst o. unfold attempt. rewrite Hr. reflexivity.
Qed.

Lemma analysis_strict (o : outcome) (text : jsstring) (parsed : value) :
  has_content o (JString text) -> JSON_parse text = Some parsed ->
  analysis_of o = parsed.
Proof.
  intros Hc Hp. unfold analysis_of. rewrite (attempt_content _ _ Hc).
  destruct text as [|c text]; [discriminate Hp|].
  cbn [ToBoolean List.length Nat.eqb negb].
  rewrite parse_or_extract_string, Hp. reflexivity.
Qed.

Lemma analysis_extracted (o : outcome) (text : jsstring) (parsed : value) :
  has_content o (JString text) -> parses_by_extraction text parsed ->
  analysis_of o = parsed.
Proof.
  intros Hc [Hp [Hf [Hl Hs]]]. unfold analysis_of.
  rewrite (attempt_content _ _ Hc).
  destruct text as [|c text]; [exfalso; revert Hf; vm_compute; congruence|].
  cbn [ToBoolean List.length Nat.eqb negb].
  rewrite parse_or_extract_string, Hp.
  replace (indexOf (c :: text) (js "{") >=? 0)%Z with true
    by (symmetry; apply Z.geb_le; lia).
  replace (lastIndexOf (c :: text) (js "}") >? indexOf (c :: text) (js "{"))%Z
    with true by (symmetry; apply Z.gtb_lt; lia).
  cbn [andb]. rewrite Hs. reflexivity.
Qed.

Lemma analysis_unparsable (o : outcome) (text : jsstring) :
  has_content o (JString text) -> JSON_parse text = None ->
  no_brace_pair text \/ JSON_parse (braced text) = None ->
  analysis_of o = JNull.
Proof.
  intros Hc Hp Hb. unfold analysis_of. rewrite (attempt_content _ _ Hc).
  destruct (negb (ToBoolean (JString text))); [reflexivity|].
  rewrite parse_or_extract_string, Hp.
  destruct ((indexOf text (js "{") >=? 0)
            && (lastIndexOf text (js "}") >? indexOf text (js "{")))%Z
    eqn:Hcond; [|reflexivity].
  apply andb_prop in Hcond. destruct Hcond as [H1 H2].
  apply Z.geb_le in H1. apply Z.gtb_lt in H2.
  destruct Hb as [[Hb | Hb] | Hb]; [lia | lia |].
  rewrite Hb. reflexivity.
Qed.

Lemma analysis_failed (o : outcome) :
  fails_to_answer o -> analysis_of o = JNull.
Proof.
  intros [[reason Ho] | [r [Ho Hr]]]; subst o; unfold analysis_of, attempt;
    [reflexivity|].
  destruct (response_content r) as [content | e]; [|reflexivity].
  rewrite (Hr content eq_refl). reflexivity.
Qed.

Lemma every_item_intro (P : outcome -> Prop) (analysis : value)
                       (entry : value -> value) :
  (forall o, P o -> analysis_of o = analysis) ->
  (forall q, (if ToBoolean analysis then success_entry q analysis
              else failure_entry q) = entry q) ->
  every_item P analysis entry.
Proof.
  intros Ha He. split.
  - intros w results quote text Ht HP.
    rewrite (analyzeQuote_run _ _ _ Ht), (analyze_item_run _ _ _ _ Ht).
    unfold item_entry. rewrite (Ha _ HP), He. split; reflexivity.
  - intros w req_body quotes i quote text Hq Hc Hi Hn Ht HP.
    assert (Hne : quotes <> []) by (intros ->; destruct i; discriminate Hn).
    destruct (handler_spec _ _ w Hq Hne Hc) as [rs [w' [Hr [_ [_ [_ Hnth]]]]]].
    exists rs, w'. split; [exact Hr|].
    rewrite (Hnth i quote text Hi Hn Ht).
    unfold item_entry. rewrite (Ha _ HP), He. reflexivity.
Qed.

(** ** Validation of the request *)

(** C1.  A request whose [quotes] is absent, is not an array, or is an
    empty array is answered 400 with the fixed message, and the world is
    left as it was: no call to the API, nothing logged.  ([req.body] is
    what [express.json()] made of the request: never [null].) *)
Theorem invalid_quotes_rejected (w : World) (req_body : value) :
  nullish req_body = false ->
  Get req_body (js "quotes") = JUndefined
  \/ Array_isArray (Get req_body (js "quotes")) = false
  \/ Get req_body (js "quotes") = JArray [] ->
  analyze_handler req_body w
  = (Normal {| status := 400;
               body := JObject
                         [ (js "error",
                            JString (js "Please provide an array of quotes.")) ] |},
     w).
Proof.
  intros Hn [Hq | [Hq | Hq]]; apply handler_not_array; try assumption.
  - left. rewrite Hq. reflexivity.
  - left. exact Hq.
  - right. exact Hq.
Qed.

(** ** Elements that cannot be converted to a string *)

(** ** Elements that can be converted *)

(** Every primitive can be converted, and so can an object that has no
    own [toString] property. *)
Lemma coercible_primitive (v : value) :
  is_object v = false -> Array_isArray v = false -> coercible v.
Proof.
  unfold coercible, ToString.
  destruct v; simpl; intros Ho Ha; try discriminate;
    eexists; reflexivity.
Qed.

Lemma coercible_plain_object (props : properties) :
  get_own props (js "toString") = None -> coercible (JObject props).
Proof.
  intros H. exists (js "[object Object]").
  unfold ToString. cbn [ToString_within]. rewrite H. reflexivity.
Qed.

Lemma coercible_nth (quotes : list value) (n i : nat) (q : value) :
  Forall coercible (firstn n quotes) -> i < n ->
  nth_error quotes i = Some q -> coercible q.
Proof.
  intros Hc Hi Hn. rewrite <- (nth_error_firstn_lt i n quotes Hi) in Hn.
  apply nth_error_In in Hn. rewrite Forall_forall in Hc. apply Hc, Hn.
Qed.

Lemma item_entry_quote (q : value) (o : outcome) :
  Get (item_entry q o) (js "quote") = q
  /\ (item_entry q o = failure_entry q
      \/ exists analysis, item_entry q o = success_entry q analysis).
Proof.
  unfold item_entry. destruct (ToBoolean (analysis_of o)).
  - split; [reflexivity | right; eexists; reflexivity].
  - split; [reflexivity | left; reflexivity].
Qed.

Section ConvertibleRequest.

(** A request whose [quotes] is a non-empty array, the first two elements
    of which can be converted to strings, handled in any world. *)
Variable w : World.
Variable req_body : value.
Variable quotes : list value.
Hypothesis quotes_array : Get req_body (js "quotes") = JArray quotes.
Hypothesis quotes_nonempty : quotes <> [].
Hypothesis quotes_coercible : Forall coercible (firstn 2 quotes).

(** X17.  For a non-empty array of [N] elements whose first two
    can be converted to strings, the handler answers 200 with
    [min(N, 2)] entries after exactly [min(N, 2)] calls to the API, and
    a request that has the same first two elements is handled in the
    same way. *)
Theorem first_two_processed :
  processes_first_two w req_body quotes
  /\ forall req_body' quotes',
       Get req_body' (js "quotes") = JArray quotes' ->
       firstn 2 quotes' = firstn 2 quotes ->
       analyze_handler req_body' w = analyze_handler req_body w.
Proof.
  split.
  - destruct (handler_spec _ _ w quotes_array quotes_nonempty quotes_coercible)
      as [rs [w' [Hr [Hlen [_ [Hcalls _]]]]]].
    exists rs, w'. repeat split; try assumption.
    rewrite Hcalls, length_app, (requests_for_length _ quotes_coercible),
      length_firstn.
    lia.
  - intros req_body' quotes' Hq' Hsame.
    assert (Hne' : quotes' <> []).
    { intros ->. destruct quotes; [contradiction | discriminate Hsame]. }
    rewrite (handler_loop _ _ _ quotes_array quotes_nonempty),
      (handler_loop _ _ _ Hq' Hne'), Hsame.
    reflexivity.
Qed.

(** X18.  For a non-empty array whose first two elements can be
    converted to strings, the handler answers 200 and
    [results[i].quote] is [quotes[i]] for every [i < min(N, 2)],
    whether the entry has the success shape or the failure shape. *)
Theorem order_preserved : echoes_quotes w req_body quotes.
Proof.
  destruct (handler_spec _ _ w quotes_array quotes_nonempty quotes_coercible)
    as [rs [w' [Hr [_ [_ [_ Hnth]]]]]].
  exists rs, w'. split; [exact Hr|].
  intros i q Hi Hn.
  assert (Hi2 : i < 2) by lia.
  destruct (coercible_nth _ _ _ _ quotes_coercible Hi2 Hn) as [text Ht].
  exists (item_entry q (answer_at w quotes i text)).
  split; [apply Hnth; assumption | apply item_entry_quote].
Qed.

(** X19.  There is no check of the type of an element: for a
    non-empty array whose first two elements can be converted to strings
    (every primitive can, and every object without an own [toString]
    property), each of them is converted,
    sent to the API inside the fixed template of the user message, and
    echoed unchanged as [results[i].quote]. *)
Theorem any_element_echoed : passes_and_echoes w req_body quotes.
Proof.
  destruct (handler_spec _ _ w quotes_array quotes_nonempty quotes_coercible)
    as [rs [w' [Hr [_ [_ [Hcalls Hnth]]]]]].
  exists rs, w'. split; [exact Hr|].
  intros i q Hi Hn.
  destruct (coercible_nth _ _ _ _ quotes_coercible Hi Hn) as [text Ht].
  exists text, (chat_request text), (item_entry q (answer_at w quotes i text)).
  repeat split.
  - exact Ht.
  - rewrite Hcalls, nth_error_app2 by lia.
    replace (List.length (calls w) + i - List.length (calls w)) with i by lia.
    apply requests_for_nth with (q := q); [exact quotes_coercible | | exact Ht].
    rewrite nth_error_firstn_lt by exact Hi. exact Hn.
  - apply Hnth; assumption.
  - apply item_entry_quote.
Qed.

End ConvertibleRequest.

(** ** Parsing the answer *)

(** The numbers of the example, as binary64 values. *)
Example strict_analysis_numbers :
  of_decimal false 8 (-1) = S754_finite false 7205759403792794 (-53)
  /\ of_decimal false 6 (-1) = S754_finite false 5404319552844595 (-53)
  /\ of_decimal false 4 (-1) = S754_finite false 7205759403792794 (-54)
  /\ of_decimal false 7 (-1) = S754_finite false 6305039478318694 (-53).
Proof. repeat split; vm_compute; reflexivity. Qed.

(** C4.  When the API answers an item with the text
    [{"sentiment":0.8,"intensity":0.6,"complexity":0.4,"agency":0.7,
    "themes":["love","loss","hope"]}], [analyzeQuote] returns the object
    with exactly those fields and the entry of the item is
    [{ quote, analysis }] with that object. *)
Theorem strict_parse_example :
  every_item (fun o => has_content o (JString strict_text))
             strict_analysis
             (fun quote =>
                JObject [ (js "quote", quote);
                          (js "analysis", strict_analysis) ]).
Proof.
  apply every_item_intro.
  - intros o Ho. apply analysis_strict with (text := strict_text);
      [exact Ho | vm_compute; reflexivity].
  - intros q. reflexivity.
Qed.

Lemma extracted_truthy (text : jsstring) (parsed : value) :
  parses_by_extraction text parsed -> ToBoolean parsed = true.
Proof.
  intros [_ [Hf [Hl Hs]]]. apply is_object_truthy.
  apply JSON_parse_brace with (text := braced text); [|exact Hs].
  apply substring_starts_with_brace; assumption.
Qed.

(** C5.  When strict parsing of the text fails, but the text has a first
    opening brace, a last closing brace after it, and the substring from
    the one to the other is JSON, [analyzeQuote] returns what that
    substring parses to and the item succeeds with it. *)
Theorem extracted_json_recovered (text : jsstring) (parsed : value) :
  parses_by_extraction text parsed ->
  every_item (fun o => has_content o (JString text))
             parsed
             (fun quote =>
                JObject [ (js "quote", quote); (js "analysis", parsed) ]).
Proof.
  intros Hx. apply every_item_intro.
  - intros o Ho. apply analysis_extracted with (text := text); assumption.
  - intros q. rewrite (extracted_truthy _ _ Hx). reflexivity.
Qed.

Lemma wrapped_text_extracted : parses_by_extraction wrapped_text wrapped_analysis.
Proof.
  repeat split; vm_compute; congruence.
Defined.

(** C6, amended.  When strict parsing of the text fails and the text has
    no pair of braces (no opening brace, or no closing brace after the
    first opening one), or what the braces enclose is not JSON either,
    [analyzeQuote] returns [null] and the entry of the item is exactly
    [{ quote, error: "Failed to analyze quote" }]. *)
Theorem unparsable_text_fails (text : jsstring) :
  JSON_parse text = None ->
  no_brace_pair text \/ JSON_parse (braced text) = None ->
  every_item (fun o => has_content o (JString text))
             JNull
             (fun quote =>
                JObject [ (js "quote", quote);
                          (js "error", JString (js "Failed to analyze quote")) ]).
Proof.
  intros Hp Hb. apply every_item_intro.
  - intros o Ho. apply analysis_unparsable with (text := text); assumption.
  - intros q. reflexivity.
Qed.

(** ** Failures of the API *)

(** X20.  When the call for an item is rejected or its response
    has no content, [analyzeQuote] catches the error and returns [null],
    and the entry of the item is [{ quote, error: "Failed to analyze
    quote" }].  For a request whose first two elements can be converted
    to strings the handler does not throw: it answers 200 with a
    [results] array of [min(N, 2)] entries, in which every entry depends
    on its own quote and on the answer to its own call only. *)
Theorem failed_call_contained :
  every_item fails_to_answer JNull
             (fun quote =>
                JObject [ (js "quote", quote);
                          (js "error", JString (js "Failed to analyze quote")) ])
  /\ forall w req_body quotes,
       Get req_body (js "quotes") = JArray quotes -> quotes <> [] ->
       Forall coercible (firstn 2 quotes) ->
       failures_contained w req_body quotes.
Proof.
  split.
  - apply every_item_intro.
    + intros o Ho. apply analysis_failed. exact Ho.
    + intros q. reflexivity.
  - intros w req_body quotes Hq Hne Hc.
    destruct (handler_spec _ _ w Hq Hne Hc)
      as [rs [w' [Hr [Hlen [_ [_ Hnth]]]]]].
    exists rs, w'. repeat split; try assumption.
    + apply Hnth; assumption.
    + intros Hf. rewrite (Hnth i q text) by assumption.
      unfold item_entry. rewrite (analysis_failed _ Hf). reflexivity.
Qed.

(** ** No schema validation *)

(** C8, amended.  When the text parses, strictly or through the braces,
    to a truthy value (any object or array, a non-zero number, a
    non-empty string, [true]), that value is the [analysis] of a success
    entry, whatever its keys and the types of their values. *)
Theorem parsed_value_passed_through (text : jsstring) (parsed : value) :
  parses_to text parsed -> ToBoolean parsed = true ->
  every_item (fun o => has_content o (JString text))
             parsed
             (fun quote =>
                JObject [ (js "quote", quote); (js "analysis", parsed) ]).
Proof.
  intros Hp Ht. apply every_item_intro.
  - intros o Ho. destruct Hp as [Hp | Hp].
    + apply analysis_strict with (text := text); assumption.
    + apply analysis_extracted with (text := text); assumption.
  - intros q. rewrite Ht. reflexivity.
Qed.

(** ** Determinism *)

(** C9.  Against a stub whose answer depends on the request alone, the
    result of the handler depends on the request body alone: a second
    run, in the world the first one left, gives the same result, and so
    does a run in any other world with the same stub. *)
Theorem deterministic_stub_same_results (w : World) (req_body : value) :
  deterministic (api w) ->
  fst (analyze_handler req_body (snd (analyze_handler req_body w)))
  = fst (analyze_handler req_body w)
  /\ forall w', api w' = api w ->
                fst (analyze_handler req_body w')
                = fst (analyze_handler req_body w).
Proof.
  intros Hdet. split.
  - symmetry. apply handler_deterministic; [|exact Hdet].
    symmetry. apply handler_api.
  - intros w' Hapi. symmetry.
    apply handler_deterministic; [symmetry; exact Hapi | exact Hdet].
Qed.

(** * Further properties of [analyzeQuote] *)

(** ** One attempt per quote *)

(** X1.  Whatever the API answers, [analyzeQuote] on a quote that can be
    converted returns normally after exactly one call: the request is
    appended to the calls, the API is left as it was, and at most one
    error is logged.  There is no retry. *)
Theorem analyzeQuote_single_attempt (w : World) (quote : value)
                                    (text : jsstring) :
  ToString quote = Normal text ->
  exists v w',
    analyzeQuote quote w = (Normal v, w')
    /\ calls w' = calls w ++ [chat_request text]
    /\ api w' = api w
    /\ (console w' = console w \/ exists e, console w' = console w ++ [e]).
Proof.
  intros Ht. rewrite (analyzeQuote_run _ _ _ Ht).
  eexists. eexists. split; [reflexivity|].
  unfold after. cbn [calls api console]. repeat split.
  destruct (attempt (api w (calls w) (chat_request text))) as [v | e].
  - left. reflexivity.
  - right. exists e. reflexivity.
Qed.

(** ** What is logged *)

(** X2.  When the call is rejected, [analyzeQuote] returns [null] and the
    reason of the rejection, whatever it is, is what goes to the console:
    it is logged, not returned. *)
Theorem rejection_logged_not_returned (w : World) (quote : value)
                                      (text : jsstring) (reason : thrown) :
  ToString quote = Normal text ->
  api w (calls w) (chat_request text) = Rejects reason ->
  analyzeQuote quote w
  = (Normal JNull,
     {| api := api w;
        calls := calls w ++ [chat_request text];
        console := console w ++ [reason] |}).
Proof.
  intros Ht Hr. rewrite (analyzeQuote_run _ _ _ Ht).
  unfold after, analysis_of, attempt. rewrite Hr. reflexivity.
Qed.

(** X3.  Something is logged only when [null] is returned: a truthy result
    leaves the console as it was. *)
Theorem success_logs_nothing (w w' : World) (quote v : value) :
  analyzeQuote quote w = (Normal v, w') ->
  ToBoolean v = true ->
  console w' = console w.
Proof.
  intros Hrun Hv.
  destruct (ToString quote) as [text | e] eqn:Ht.
  - rewrite (analyzeQuote_run _ _ _ Ht) in Hrun.
    inversion Hrun as [[Hval Hw]]. clear Hrun.
    unfold after. cbn [console].
    unfold analysis_of in Hval.
    destruct (attempt (api w (calls w) (chat_request text))) as [p | e];
      [reflexivity|].
    subst v. discriminate Hv.
  - rewrite (analyzeQuote_throws _ _ _ Ht) in Hrun. discriminate Hrun.
Qed.

(** ** A response without content *)

Lemma response_content_total (r : value) :
  response_content r
  = if nullish r then Throw TypeError
    else Normal (optional_member
                   (optional_member
                      (optional_member (Get r (js "choices")) (js "0"))
                      (js "message"))
                   (js "content")).
Proof.
  unfold response_content, member. destruct (nullish r); reflexivity.
Qed.

(** X4.  Only the first link of [response.choices?.[0]?.message?.content] can
    throw.  A response that is [null] or [undefined] is logged as a
    [TypeError]; any other response whose chain ends in a falsy content
    (no [choices], no first choice, no [message], no [content], an empty
    string) is logged as the error "Empty response from OpenAI".  In both
    cases [null] is returned. *)
Theorem missing_content_is_empty_response (w : World) (quote : value)
                                          (text : jsstring) (r : value) :
  ToString quote = Normal text ->
  api w (calls w) (chat_request text) = Resolves r ->
  (forall content, response_content r = Normal content ->
                   ToBoolean content = false) ->
  analyzeQuote quote w
  = (Normal JNull,
     {| api := api w;
        calls := calls w ++ [chat_request text];
        console := console w
                   ++ [if nullish r then TypeError
                       else Error (js "Empty response from OpenAI")] |}).
Proof.
  intros Ht Hr Hc. rewrite (analyzeQuote_run _ _ _ Ht).
  unfold after, analysis_of, attempt. rewrite Hr.
  rewrite response_content_total in *.
  destruct (nullish r); [reflexivity|].
  rewrite (Hc _ eq_refl). reflexivity.
Qed.

(** ** The two parse attempts *)

(** The run of [analyzeQuote] when both attempts fail. *)
Lemma analyzeQuote_both_fail (w : World) (quote : value)
                             (qtext text : jsstring) :
  ToString quote = Normal qtext ->
  has_content (api w (calls w) (chat_request qtext)) (JString text) ->
  text <> [] ->
  JSON_parse text = None ->
  (brace_pair text = true -> JSON_parse (braced text) = None) ->
  analyzeQuote quote w
  = (Normal JNull,
     {| api := api w;
        calls := calls w ++ [chat_request qtext];
        console := console w
                   ++ [SyntaxError (if brace_pair text then braced text
                                    else text)] |}).
Proof.
  intros Ht Hc Hne Hp Hb. rewrite (analyzeQuote_run _ _ _ Ht).
  unfold after, analysis_of. rewrite (attempt_content _ _ Hc).
  destruct text as [|c text]; [contradiction|].
  cbn [ToBoolean List.length Nat.eqb negb].
  rewrite parse_or_extract_string, Hp. fold (brace_pair (c :: text)).
  destruct (brace_pair (c :: text)); [|reflexivity].
  rewrite (Hb eq_refl). reflexivity.
Qed.

(** X5.  When both attempts fail, the error that reaches the console is the
    one of the last attempt made: with a pair of braces, the
    [SyntaxError] of the extracted substring (the one of the whole text
    is dropped); without, the [SyntaxError] of the whole text, thrown
    again. *)
Theorem logged_syntax_error (w : World) (quote : value)
                            (qtext text : jsstring) :
  ToString quote = Normal qtext ->
  has_content (api w (calls w) (chat_request qtext)) (JString text) ->
  text <> [] ->
  JSON_parse text = None ->
  (brace_pair text = true -> JSON_parse (braced text) = None) ->
  analyzeQuote quote w
  = (Normal JNull,
     {| api := api w;
        calls := calls w ++ [chat_request qtext];
        console := console w
                   ++ [SyntaxError (if brace_pair text then braced text
                                    else text)] |}).
Proof. apply analyzeQuote_both_fail. Qed.

Lemma lastIndexOf_from_last (c : code_unit) (s : jsstring) :
  forall i found,
    lastIndexOf_from i (s ++ [c]) [c] found = (i + Z.of_nat (List.length s))%Z.
Proof.
  unfold jsstring, code_unit in *.
  induction s as [|y s IH]; intros i found.
  - simpl. rewrite N.eqb_refl. simpl. lia.
  - cbn [app lastIndexOf_from List.length]. rewrite IH. lia.
Qed.

Lemma substring_whole (s : jsstring) :
  substring s 0 (Z.of_nat (List.length s)) = s.
Proof.
  unfold substring. set (len := Z.of_nat (List.length s)).
  assert (Hlen : (0 <= len)%Z) by (unfold len; lia).
  replace (Z.min (Z.max 0 0) len) with 0%Z by lia.
  replace (Z.min (Z.max len 0) len) with len by lia.
  replace (Z.min 0 len) with 0%Z by lia.
  replace (Z.max 0 len) with len by lia.
  rewrite Z.sub_0_r. unfold len. rewrite Nat2Z.id. cbn [Z.to_nat skipn].
  apply firstn_all.
Qed.

(** A text that opens with a brace and ends with one is its own
    extraction. *)
Lemma braced_whole (mid : jsstring) :
  brace_pair (123%N :: mid ++ [125%N]) = true
  /\ braced (123%N :: mid ++ [125%N]) = 123%N :: mid ++ [125%N].
Proof.
  assert (Hf : indexOf (123%N :: mid ++ [125%N]) (js "{") = 0%Z)
    by reflexivity.
  assert (Hl : (lastIndexOf (123%N :: mid ++ [125%N]) (js "}") + 1)%Z
               = Z.of_nat (List.length (123%N :: mid ++ [125%N]))).
  { unfold lastIndexOf. change (js "}") with [125%N].
    rewrite app_comm_cons, lastIndexOf_from_last, length_app.
    cbn [List.length]. lia. }
  unfold brace_pair, braced. rewrite Hf, Hl. split.
  - apply andb_true_intro. split; [reflexivity|].
    apply Z.gtb_lt. cbn [List.length] in Hl. rewrite length_app in Hl.
    cbn [List.length] in Hl. lia.
  - apply substring_whole.
Qed.

(** X6.  The fallback cannot repair a text that is already delimited by
    braces: when the text opens with [{], ends with [}] and is not JSON,
    the second attempt parses the very same text, and the item fails. *)
Theorem braced_text_not_repaired (w : World) (results : list value)
                                 (quote : value) (qtext mid : jsstring) :
  ToString quote = Normal qtext ->
  has_content (api w (calls w) (chat_request qtext))
              (JString (123%N :: mid ++ [125%N])) ->
  JSON_parse (123%N :: mid ++ [125%N]) = None ->
  fst (analyzeQuote quote w) = Normal JNull
  /\ fst (analyze_item results quote w)
     = Normal (results ++ [failure_entry quote])
  /\ console (snd (analyzeQuote quote w))
     = console w ++ [SyntaxError (123%N :: mid ++ [125%N])].
Proof.
  intros Ht Hc Hp.
  destruct (braced_whole mid) as [Hpair Hbraced].
  assert (Ha : analysis_of (api w (calls w) (chat_request qtext)) = JNull).
  { apply analysis_unparsable with (text := 123%N :: mid ++ [125%N]);
      [exact Hc | exact Hp | right; rewrite Hbraced; exact Hp]. }
  split; [|split].
  - rewrite (analyzeQuote_run _ _ _ Ht). cbn [fst]. rewrite Ha. reflexivity.
  - rewrite (analyze_item_run _ _ _ _ Ht). cbn [fst].
    unfold item_entry. rewrite Ha. reflexivity.
  - rewrite (analyzeQuote_both_fail w quote qtext (123%N :: mid ++ [125%N])
                                     Ht Hc).
    + cbn [snd console]. rewrite Hpair, Hbraced. reflexivity.
    + discriminate.
    + exact Hp.
    + intros _. rewrite Hbraced. exact Hp.
Qed.

(** X7.  Once strict parsing has failed, [analyzeQuote] returns an object or
    [null]: the extraction never yields an array or a primitive, however
    the text is wrapped. *)
Theorem fallback_yields_object_or_null (w : World) (quote : value)
                                       (qtext text : jsstring) :
  ToString quote = Normal qtext ->
  has_content (api w (calls w) (chat_request qtext)) (JString text) ->
  JSON_parse text = None ->
  exists v,
    fst (analyzeQuote quote w) = Normal v
    /\ (v = JNull \/ is_object v = true).
Proof.
  intros Ht Hc Hp. rewrite (analyzeQuote_run _ _ _ Ht). cbn [fst].
  eexists. split; [reflexivity|].
  unfold analysis_of. rewrite (attempt_content _ _ Hc).
  destruct (negb (ToBoolean (JString text))); [left; reflexivity|].
  rewrite parse_or_extract_string, Hp.
  destruct ((indexOf text (js "{") >=? 0)
            && (lastIndexOf text (js "}") >? indexOf text (js "{")))%Z
    eqn:Hcond; [|left; reflexivity].
  apply andb_prop in Hcond. destruct Hcond as [H1 H2].
  apply Z.geb_le in H1. apply Z.gtb_lt in H2.
  destruct (JSON_parse (braced text)) as [parsed|] eqn:Hs;
    [|left; reflexivity].
  right. apply JSON_parse_brace with (text := braced text); [|exact Hs].
  apply substring_starts_with_brace; assumption.
Qed.

(** * Further properties of the handler *)

(** ** What the handler can throw *)

Lemma value_nested_ind (P : value -> Prop) :
  P JUndefined -> P JNull ->
  (forall b, P (JBool b)) -> (forall x, P (JNumber x)) ->
  (forall s, P (JString s)) ->
  (forall elems, Forall P elems -> P (JArray elems)) ->
  (forall props, P (JObject props)) ->
  forall v, P v.
Proof.
  intros Hu Hn Hb Hx Hs Ha Ho.
  fix IH 1. intros v. destruct v as [ | | b | x | s | elems | props].
  - exact Hu.
  - exact Hn.
  - apply Hb.
  - apply Hx.
  - apply Hs.
  - apply Ha. induction elems as [|e elems IHl]; constructor;
      [apply IH | exact IHl].
  - apply Ho.
Qed.

(** The conversion to a string fails with a [TypeError] or, on an array
    nested too deep, with a [RangeError]: nothing else. *)
Lemma ToString_within_throws (v : value) :
  forall depth e,
    ToString_within depth v = Throw e -> e = TypeError \/ e = RangeError.
Proof.
  induction v as [ | | b | x | s | elems IH | props] using value_nested_ind;
    intros depth e H; try discriminate H.
  - cbn [ToString_within] in H.
    destruct depth as [|depth]; [inversion H; right; reflexivity|].
    revert H.
    match goal with
    | |- ?join true elems = Throw e -> _ =>
        enough (Hany : forall first, join first elems = Throw e ->
                                     e = TypeError \/ e = RangeError)
          by apply Hany
    end.
    induction IH as [|v l Hv Hl IHl]; intros first H.
    + discriminate H.
    + cbn fix match beta in H.
      destruct (if nullish v then Normal [] else ToString_within depth v)
        as [s | t] eqn:Hs.
      * match type of H with
        | context [match ?J with Normal _ => _ | Throw _ => _ end] =>
            destruct J as [r | t] eqn:Hj
        end; [discriminate H|].
        inversion H; subst. exact (IHl false Hj).
      * inversion H; subst.
        destruct (nullish v); [discriminate Hs | eapply Hv; exact Hs].
  - cbn [ToString_within] in H.
    destruct (get_own props (js "toString")); inversion H. left. reflexivity.
Qed.

Lemma ToString_throws (v : value) (e : thrown) :
  ToString v = Throw e -> e = TypeError \/ e = RangeError.
Proof. apply ToString_within_throws. Qed.

Lemma for_of_throws (quotes : list value) :
  forall results w e w',
    for_of quotes results w = (Throw e, w') ->
    e = TypeError \/ e = RangeError.
Proof.
  induction quotes as [|quote rest IH]; intros results w e w' H.
  - discriminate H.
  - destruct (ToString quote) as [text | t] eqn:Ht.
    + rewrite (for_of_cons_run _ _ _ _ _ Ht) in H. eapply IH. exact H.
    + rewrite (for_of_cons_throws _ _ _ _ _ Ht) in H.
      inversion H; subst. eapply ToString_throws. exact Ht.
Qed.

Lemma for_of_length (quotes : list value) :
  forall results w rs w',
    for_of quotes results w = (Normal rs, w') ->
    List.length rs = List.length results + List.length quotes.
Proof.
  intros results w rs w' H.
  pose proof (for_of_normal_coercible _ _ _ _ _ H) as Hc.
  destruct (for_of_spec _ results w Hc) as [rs0 [w0 [Hrun [Hlen _]]]].
  rewrite Hrun in H. inversion H; subst.
  rewrite length_app, Hlen. reflexivity.
Qed.

(** The three ways through the handler. *)
Lemma handler_cases (req_body : value) (w : World) :
  (nullish req_body = true
   /\ analyze_handler req_body w = (Throw TypeError, w))
  \/ (nullish req_body = false
      /\ (Array_isArray (Get req_body (js "quotes")) = false
          \/ Get req_body (js "quotes") = JArray [])
      /\ analyze_handler req_body w = (Normal bad_request, w))
  \/ (exists quotes,
         Get req_body (js "quotes") = JArray quotes /\ quotes <> []
         /\ analyze_handler req_body w
            = bind (for_of (firstn 2 quotes) [])
                   (fun rs => ret (ok_response rs)) w).
Proof.
  destruct (nullish req_body) eqn:Hn.
  - left. split; [reflexivity|].
    unfold analyze_handler. rewrite bind_run. unfold lift, member.
    rewrite Hn. reflexivity.
  - right.
    destruct (Get req_body (js "quotes")) as [ | | b | x | s | l | ps] eqn:Hq;
      try (left; split; [reflexivity|]; split;
           [left; reflexivity
           | apply handler_not_array; [exact Hn | left; rewrite Hq; reflexivity]]).
    destruct l as [|q l].
    + left. split; [reflexivity|]. split; [right; reflexivity|].
      apply handler_not_array; [exact Hn | right; exact Hq].
    + right. exists (q :: l). split; [reflexivity|]. split; [discriminate|].
      apply handler_loop; [exact Hq | discriminate].
Qed.

(** X8.  The handler has three outcomes and no other: it answers 400 with the
    fixed message, it answers 200 with one or two entries, or it throws
    what the conversion of an element to a string throws, a [TypeError]
    or a [RangeError].  No other status is sent, and neither the reason
    of a rejected call nor a [SyntaxError] ever leaves it. *)
Theorem handler_outcomes (w : World) (req_body : value) :
  match fst (analyze_handler req_body w) with
  | Throw e => e = TypeError \/ e = RangeError
  | Normal r =>
      r = {| status := 400;
             body := JObject
                       [ (js "error",
                          JString (js "Please provide an array of quotes.")) ] |}
      \/ exists rs,
           r = {| status := 200; body := JObject [ (js "results", JArray rs) ] |}
           /\ 1 <= List.length rs <= 2
  end.
Proof.
  destruct (handler_cases req_body w)
    as [[_ H] | [[_ [_ H]] | [quotes [Hq [Hne H]]]]]; rewrite H.
  - left. reflexivity.
  - left. reflexivity.
  - rewrite bind_run.
    destruct (for_of (firstn 2 quotes) [] w) as [[rs | e] w'] eqn:Hrun.
    + right. exists rs. split; [reflexivity|].
      rewrite (for_of_length _ _ _ _ _ Hrun), length_firstn.
      destruct quotes; [contradiction|]. cbn [List.length]. lia.
    + cbn [fst]. eapply for_of_throws. exact Hrun.
Qed.

(** X9.  The handler answers 400 exactly when [req.body] is neither [null] nor
    [undefined] and its [quotes] is not a non-empty array; a non-empty
    array is never refused, whatever its elements. *)
Theorem bad_request_iff_invalid (w : World) (req_body : value) :
  (exists r w', analyze_handler req_body w = (Normal r, w')
                /\ status r = 400%N)
  <-> nullish req_body = false
      /\ (Array_isArray (Get req_body (js "quotes")) = false
          \/ Get req_body (js "quotes") = JArray []).
Proof.
  split.
  - intros [r [w' [Hrun Hs]]].
    destruct (handler_cases req_body w)
      as [[_ H] | [[Hn [Hq _]] | [quotes [_ [_ H]]]]].
    + rewrite H in Hrun. discriminate Hrun.
    + split; assumption.
    + rewrite H, bind_run in Hrun.
      destruct (for_of (firstn 2 quotes) [] w) as [[rs | e] w0];
        [|discriminate Hrun].
      inversion Hrun; subst. discriminate Hs.
  - intros [Hn Hq]. exists bad_request, w. split; [|reflexivity].
    apply handler_not_array; assumption.
Qed.

(** ** Elements that cannot be converted, again *)

(** X10.  For a non-empty array, the handler answers 200 exactly when its
    first two elements can be converted to strings; the elements after
    them play no part. *)
Theorem responds_iff_coercible (w : World) (req_body : value)
                               (quotes : list value) :
  Get req_body (js "quotes") = JArray quotes -> quotes <> [] ->
  ((exists rs w', responds w req_body rs w')
   <-> Forall coercible (firstn 2 quotes)).
Proof.
  intros Hq Hne. split.
  - intros [rs [w' H]]. eapply responds_coercible; eassumption.
  - intros Hc. destruct (handler_spec _ _ w Hq Hne Hc) as [rs [w' [H _]]].
    exists rs, w'. exact H.
Qed.

(** X11.  When the first element can be converted and the second cannot, the
    handler throws what the conversion of the second throws, and only
    after the first item has been analysed: the call for the first quote
    has been made, and its result is lost with the response. *)
Theorem handler_partial_work (w : World) (req_body : value)
                             (q0 q1 : value) (rest : list value)
                             (text0 : jsstring) (e : thrown) :
  Get req_body (js "quotes") = JArray (q0 :: q1 :: rest) ->
  ToString q0 = Normal text0 -> ToString q1 = Throw e ->
  exists w',
    analyze_handler req_body w = (Throw e, w')
    /\ (e = TypeError \/ e = RangeError)
    /\ calls w' = calls w ++ [chat_request text0]
    /\ api w' = api w.
Proof.
  intros Hq H0 H1.
  rewrite (handler_loop _ _ w Hq) by discriminate.
  cbn [firstn]. rewrite bind_run, (for_of_cons_run _ _ _ _ _ H0),
    (for_of_cons_throws _ _ _ _ _ H1).
  eexists. split; [reflexivity|].
  split; [exact (ToString_throws _ _ H1)|]. split; reflexivity.
Qed.

(** ** Quotes that are strings *)

(** X12.  A request whose first two quotes are strings, empty ones included, is
    always answered 200: each string is sent as it is in its own request,
    in order, and comes back as the [quote] of its entry. *)
Theorem string_quotes_always_answered (w : World) (req_body : value)
                                      (quotes : list value) :
  Get req_body (js "quotes") = JArray quotes -> quotes <> [] ->
  (forall q, In q (firstn 2 quotes) -> exists s, q = JString s) ->
  exists rs w',
    responds w req_body rs w'
    /\ List.length rs = Nat.min (List.length quotes) 2
    /\ forall i s,
         i < 2 -> nth_error quotes i = Some (JString s) ->
         nth_error (calls w') (List.length (calls w) + i)
         = Some (chat_request s)
         /\ exists entry,
              nth_error rs i = Some entry
              /\ Get entry (js "quote") = JString s.
Proof.
  intros Hq Hne Hs.
  assert (Hc : Forall coercible (firstn 2 quotes)).
  { apply Forall_forall. intros q Hin. destruct (Hs q Hin) as [s ->].
    exists s. reflexivity. }
  destruct (handler_spec _ _ w Hq Hne Hc)
    as [rs [w' [Hr [Hlen [_ [Hcalls Hnth]]]]]].
  exists rs, w'. split; [exact Hr|]. split; [exact Hlen|].
  intros i s Hi Hn. split.
  - rewrite Hcalls, nth_error_app2 by lia.
    replace (List.length (calls w) + i - List.length (calls w)) with i by lia.
    apply requests_for_nth with (q := JString s);
      [exact Hc | | reflexivity].
    rewrite nth_error_firstn_lt by exact Hi. exact Hn.
  - exists (item_entry (JString s) (answer_at w quotes i s)). split.
    + apply Hnth; [exact Hi | exact Hn | reflexivity].
    + apply item_entry_quote.
Qed.

(** ** What the API sees of a quote *)

Lemma user_prompt_inj (t1 t2 : jsstring) :
  user_prompt t1 = user_prompt t2 -> t1 = t2.
Proof.
  unfold user_prompt. intros H.
  apply app_inv_head in H. apply app_inv_head in H.
  apply app_inv_tail in H. exact H.
Qed.

Lemma sent_text_chat_request (text : jsstring) :
  sent_text (chat_request text) = JString (user_prompt text).
Proof. reflexivity. Qed.

(** X13.  The request carries the text of the quote and nothing else of it:
    two quotes are sent as the same request exactly when they convert to
    the same text.  So [null] and the string "null" reach the API as the
    same request, and quotes with different texts never do. *)
Theorem request_determines_text (q1 q2 : value) (t1 t2 : jsstring) :
  ToString q1 = Normal t1 -> ToString q2 = Normal t2 ->
  (request_for q1 = request_for q2 <-> t1 = t2).
Proof.
  intros H1 H2.
  rewrite (request_for_coerced _ _ H1), (request_for_coerced _ _ H2).
  split.
  - intros H. apply user_prompt_inj.
    assert (Hs : map sent_text [chat_request t1]
                 = map sent_text [chat_request t2])
      by (rewrite H; reflexivity).
    cbn [map] in Hs. rewrite !sent_text_chat_request in Hs.
    congruence.
  - intros ->. reflexivity.
Qed.

(** ** The console after a request *)

Lemma has_error_item_entry (q : value) (o : outcome) :
  has_error (item_entry q o) = negb (ToBoolean (analysis_of o)).
Proof.
  unfold item_entry. destruct (ToBoolean (analysis_of o)); reflexivity.
Qed.

Lemma for_of_console (quotes : list value) :
  Forall coercible quotes ->
  forall results w,
  exists rs w' logs,
    for_of quotes results w = (Normal (results ++ rs), w')
    /\ console w' = console w ++ logs
    /\ List.length logs <= List.length (filter has_error rs).
Proof.
  induction 1 as [|quote rest [text Ht] Hrest IH]; intros results w.
  - exists [], w, []. cbn [for_of]. unfold ret. rewrite !app_nil_r.
    repeat split. reflexivity.
  - rewrite (for_of_cons_run _ _ _ _ _ Ht).
    set (o := api w (calls w) (chat_request text)).
    destruct (IH (results ++ [item_entry quote o])
                 (after w (chat_request text) o))
      as [rs [w' [logs [Hrun [Hcon Hlen]]]]].
    rewrite Hrun, <- app_assoc. cbn [app].
    unfold after in Hcon. cbn [console] in Hcon.
    pose proof (has_error_item_entry quote o) as He.
    unfold analysis_of in He. revert Hcon He.
    destruct (attempt o) as [v | e]; intros Hcon He.
    + exists (item_entry quote o :: rs), w', logs.
      split; [reflexivity|]. split; [exact Hcon|].
      cbn [filter]. destruct (has_error (item_entry quote o));
        cbn [List.length]; lia.
    + exists (item_entry quote o :: rs), w', (e :: logs).
      split; [reflexivity|]. split.
      * rewrite Hcon, <- app_assoc. reflexivity.
      * cbn [filter]. rewrite He. cbn [ToBoolean negb List.length]. lia.
Qed.

Section LogsOfARequest.

Variable w : World.
Variable req_body : value.
Variable quotes : list value.
Hypothesis quotes_array : Get req_body (js "quotes") = JArray quotes.
Hypothesis quotes_nonempty : quotes <> [].
Hypothesis quotes_coercible : Forall coercible (firstn 2 quotes).

(** X14.  A request only adds to the console, and no more lines than there are
    entries with an [error] in its response: when every item succeeds,
    nothing is logged. *)
Theorem handler_logs_bounded :
  exists rs w' logs,
    responds w req_body rs w'
    /\ console w' = console w ++ logs
    /\ List.length logs <= List.length (filter has_error rs)
    /\ (forallb (fun entry => negb (has_error entry)) rs = true ->
        console w' = console w).
Proof.
  destruct (for_of_console _ quotes_coercible [] w)
    as [rs [w' [logs [Hrun [Hcon Hlen]]]]].
  exists rs, w', logs. unfold responds.
  rewrite (handler_loop _ _ _ quotes_array quotes_nonempty), bind_run, Hrun.
  split; [reflexivity|]. split; [exact Hcon|]. split; [exact Hlen|].
  intros Hall.
  assert (Hnone : filter has_error rs = []).
  { clear - Hall. induction rs as [|entry rs IH]; [reflexivity|].
    cbn [forallb] in Hall. apply andb_prop in Hall. destruct Hall as [H1 H2].
    cbn [filter]. destruct (has_error entry); [discriminate H1|].
    apply IH. exact H2. }
  rewrite Hnone in Hlen. destruct logs; [|cbn [List.length] in Hlen; lia].
  rewrite Hcon, app_nil_r. reflexivity.
Qed.

End LogsOfARequest.

(** ** The cost of a request *)

Lemma for_of_calls (quotes : list value) :
  forall results w,
  exists sent,
    calls (snd (for_of quotes results w)) = calls w ++ sent
    /\ List.length sent <= List.length quotes.
Proof.
  induction quotes as [|quote rest IH]; intros results w.
  - exists []. cbn [for_of]. unfold ret. cbn [snd List.length].
    rewrite app_nil_r. split; [reflexivity | lia].
  - destruct (ToString quote) as [text | e] eqn:Ht.
    + rewrite (for_of_cons_run _ _ _ _ _ Ht).
      destruct (IH (results
                      ++ [item_entry quote
                            (api w (calls w) (chat_request text))])
                   (after w (chat_request text)
                          (api w (calls w) (chat_request text))))
        as [sent [Hc Hl]].
      exists (chat_request text :: sent). rewrite Hc.
      unfold after. cbn [calls List.length]. rewrite <- app_assoc.
      split; [reflexivity | lia].
    + rewrite (for_of_cons_throws _ _ _ _ _ Ht).
      exists []. cbn [snd List.length]. rewrite app_nil_r.
      split; [reflexivity | lia].
Qed.

(** X15.  Whatever the request and however it ends, with a response or with an
    exception, the handler only adds to the calls, and at most two. *)
Theorem at_most_two_calls (w : World) (req_body : value) :
  exists sent,
    calls (snd (analyze_handler req_body w)) = calls w ++ sent
    /\ List.length sent <= 2.
Proof.
  destruct (handler_cases req_body w)
    as [[_ H] | [[_ [_ H]] | [quotes [_ [_ H]]]]]; rewrite H.
  - exists []. cbn [snd List.length]. rewrite app_nil_r.
    split; [reflexivity | lia].
  - exists []. cbn [snd List.length]. rewrite app_nil_r.
    split; [reflexivity | lia].
  - destruct (for_of_calls (firstn 2 quotes) [] w) as [sent [Hc Hl]].
    exists sent. rewrite bind_run.
    destruct (for_of (firstn 2 quotes) [] w) as [[rs | e] w'];
      cbn [snd] in *; unfold ret; cbn [snd];
      (split; [exact Hc | rewrite length_firstn in Hl; lia]).
Qed.

(** * The port *)

(** X16.  The port is the default 3000 exactly when [PORT] is unset or empty;
    any other [PORT] is used as the string it is, without a check that it
    is a number, and is what the startup message shows. *)
Theorem listening_message_port (PORT : option jsstring) :
  ToBoolean (port PORT) = true
  /\ (port PORT = JNumber (of_decimal false 3000 0)
      <-> PORT = None \/ PORT = Some [])
  /\ listening_message PORT
     = Normal (js "Quote Geometry app listening at http://localhost:"
               ++ match PORT with
                  | Some (c :: s) => c :: s
                  | _ => js "3000"
                  end).
Proof.
  destruct PORT as [[|c s]|].
  - split; [reflexivity|]. split; [|vm_compute; reflexivity].
    split; [intros _; right; reflexivity | intros _; reflexivity].
  - split; [reflexivity|]. split; [|reflexivity].
    split; [intros H; discriminate H | intros [H | H]; discriminate H].
  - split; [reflexivity|]. split; [|vm_compute; reflexivity].
    split; [intros _; left; reflexivity | intros _; reflexivity].
Qed.

End Runtime.

(** * The properties on examples

    The examples run in the runtime of depth [test_depth]. *)

(** Two steps that recur with concrete requests: the handler evaluates to
    a rejection, so it has not responded; the listed quotes are all
    convertible. *)
Ltac no_response H :=
  unfold responds in H; vm_compute in H; discriminate H.

Ltac all_coercible := repeat constructor; eexists; reflexivity.

Example ToString_examples :
  ToString test_depth
           (JArray [ JNull; JBool true;
                     JArray [ JString (js "x"); JUndefined ]; JObject [] ])
  = Normal (js ",true,x,,[object Object]")
  /\ ToString test_depth (JNumber (of_decimal false 8 (-1)))
     = Normal (js "0.8")
  /\ ToString test_depth (JNumber (of_decimal false 1 21))
     = Normal (js "1e+21")
  /\ ToString test_depth (JNumber (of_decimal false 123 (-9)))
     = Normal (js "1.23e-7")
  /\ ToString test_depth (hides_toString JNull) = Throw TypeError
  /\ ToString test_depth
              (JArray [ JNumber (of_decimal false 1 0); hides_toString JNull ])
     = Throw TypeError
  /\ ToString 2 (JArray [ JArray [ JArray [] ] ]) = Throw RangeError
  /\ ToString 3 (JArray [ JArray [ JArray [] ] ]) = Normal [].
Proof. repeat split; vm_compute; reflexivity. Qed.

(** ** Validation of the request *)

Lemma invalid_quotes_rejected_witness :
  analyze_handler test_depth (JObject []) unreachable
  = (Normal bad_request, unreachable)
  /\ analyze_handler test_depth
                     (JObject [(js "quotes", JString (js "carpe diem"))])
                     unreachable
     = (Normal bad_request, unreachable)
  /\ analyze_handler test_depth (request_with []) unreachable
     = (Normal bad_request, unreachable).
Proof.
  split; [|split].
  - apply invalid_quotes_rejected; [reflexivity | left; reflexivity].
  - apply invalid_quotes_rejected;
      [reflexivity | right; left; reflexivity].
  - apply invalid_quotes_rejected;
      [reflexivity | right; right; reflexivity].
Defined.

(** ** An element that cannot be converted to a string

    The template literal of the user message is evaluated before the
    [try] block of [analyzeQuote] is entered.  What it throws is not
    caught: it leaves [analyzeQuote], which is documented to return
    [null] when an error occurs, and then the handler, which sends no
    response.  The four lemmas below run the handler on such requests. *)

(** C2.  On [{"quotes": [{"toString": null}]}], a non-empty array of one
    element, the handler throws a [TypeError] before any call is made:
    no item is processed and there is no [results] array of length
    [min(1, 2)]. *)
Theorem toString_object_no_results :
  analyze_handler test_depth (request_with [hides_toString JNull])
                  (stub (JString strict_text))
  = (Throw TypeError, stub (JString strict_text))
  /\ ~ processes_first_two test_depth
                           (stub (JString strict_text))
                           (request_with [hides_toString JNull])
                           [hides_toString JNull].
Proof.
  split; [vm_compute; reflexivity|].
  intros [rs [w' [H _]]]. no_response H.
Qed.

(** C3.  On [{"quotes": ["carpe diem", {"toString": true}]}] the first
    item is analysed, the second makes the handler throw a [TypeError],
    and there is no [results] array in which [results[0].quote] could be
    [quotes[0]]. *)
Theorem toString_second_element_no_results :
  fst (analyze_handler test_depth
         (request_with [JString (js "carpe diem"); hides_toString (JBool true)])
         (stub (JString strict_text)))
  = Throw TypeError
  /\ ~ echoes_quotes test_depth
                     (stub (JString strict_text))
                     (request_with [JString (js "carpe diem");
                                    hides_toString (JBool true)])
                     [JString (js "carpe diem"); hides_toString (JBool true)].
Proof.
  split; [vm_compute; reflexivity|].
  intros [rs [w' [H _]]]. no_response H.
Qed.

(** C7.  With an unreachable API and [{"quotes": ["a", {"toString":
    null}]}], the rejection of the first call is caught and logged, but
    the second element makes [analyzeQuote] throw a [TypeError] outside
    its [try] block: the exception reaches the caller of the handler and
    there is no 200 response. *)
Theorem toString_object_escapes_catch :
  fails_to_answer
    (answer_at test_depth unreachable
               [JString (js "a"); hides_toString JNull] 0 (js "a"))
  /\ analyze_handler test_depth
                     (request_with [JString (js "a"); hides_toString JNull])
                     unreachable
     = (Throw TypeError,
        {| api := api unreachable;
           calls := [chat_request (js "a")];
           console := [Error (js "network failure")] |})
  /\ fst (analyzeQuote test_depth (hides_toString JNull) unreachable)
     = Throw TypeError
  /\ ~ failures_contained
         test_depth unreachable
         (request_with [JString (js "a"); hides_toString JNull])
         [JString (js "a"); hides_toString JNull].
Proof.
  split; [left; eexists; reflexivity|].
  split; [vm_compute; reflexivity|].
  split; [vm_compute; reflexivity|].
  intros [rs [w' [H _]]]. no_response H.
Qed.

(** C10.  On [{"quotes": [{"toString": "x"}]}] the element, an object,
    is not coerced to a string: the template literal throws a
    [TypeError], nothing is sent to the API and nothing is echoed as
    [results[0].quote]. *)
Theorem toString_object_not_echoed :
  analyze_handler test_depth
                  (request_with [hides_toString (JString (js "x"))])
                  (stub (JString strict_text))
  = (Throw TypeError, stub (JString strict_text))
  /\ ~ passes_and_echoes test_depth
                         (stub (JString strict_text))
                         (request_with [hides_toString (JString (js "x"))])
                         [hides_toString (JString (js "x"))].
Proof.
  split; [vm_compute; reflexivity|].
  intros [rs [w' [H _]]]. no_response H.
Qed.

(** ** Elements that can be converted *)

Lemma first_two_processed_witness :
  processes_first_two
    test_depth
    (stub (JString strict_text))
    (request_with [JString (js "a"); JNull; hides_toString JNull])
    [JString (js "a"); JNull; hides_toString JNull].
Proof.
  apply first_two_processed.
  - reflexivity.
  - discriminate.
  - all_coercible.
Defined.

Lemma order_preserved_witness :
  echoes_quotes test_depth
                (stub (JString (js "not json")))
                (request_with [JString (js "b"); JString (js "a")])
                [JString (js "b"); JString (js "a")].
Proof.
  apply order_preserved.
  - reflexivity.
  - discriminate.
  - all_coercible.
Defined.

Lemma any_element_echoed_witness :
  passes_and_echoes
    test_depth
    (stub (JString strict_text))
    (request_with [JNumber (of_decimal false 15 (-1));
                   JObject [ (js "author", JNull) ]])
    [JNumber (of_decimal false 15 (-1)); JObject [ (js "author", JNull) ]].
Proof.
  apply any_element_echoed.
  - reflexivity.
  - discriminate.
  - all_coercible.
Defined.

Lemma failed_call_contained_witness :
  failures_contained test_depth unreachable
                     (request_with [JString (js "a"); JString (js "b")])
                     [JString (js "a"); JString (js "b")].
Proof.
  apply (proj2 (failed_call_contained test_depth)).
  - reflexivity.
  - discriminate.
  - all_coercible.
Defined.

(** ** Parsing the answer *)

Lemma strict_parse_example_witness :
  fst (analyze_item test_depth [] (JString (js "Carpe diem"))
                    (stub (JString strict_text)))
  = Normal [ JObject [ (js "quote", JString (js "Carpe diem"));
                       (js "analysis", strict_analysis) ] ].
Proof.
  refine (proj2 (proj1 (strict_parse_example test_depth)
                       (stub (JString strict_text)) []
                       (JString (js "Carpe diem")) (js "Carpe diem")
                       eq_refl _)).
  exists (reply (JString strict_text)). split; reflexivity.
Defined.

Lemma extracted_json_recovered_witness :
  fst (analyze_item test_depth [] (JString (js "Carpe diem"))
                    (stub (JString wrapped_text)))
  = Normal [ JObject [ (js "quote", JString (js "Carpe diem"));
                       (js "analysis", wrapped_analysis) ] ].
Proof.
  refine (proj2 (proj1 (extracted_json_recovered
                          test_depth
                          wrapped_text wrapped_analysis wrapped_text_extracted)
                       (stub (JString wrapped_text)) []
                       (JString (js "Carpe diem")) (js "Carpe diem")
                       eq_refl _)).
  exists (reply (JString wrapped_text)). split; reflexivity.
Defined.

(** C6 as stated fails: the text [[1]] has no brace at all, yet it is
    JSON, strict parsing succeeds and the item is a success. *)
Lemma unparsable_text_fails_counterexample :
  no_brace_pair (js "[1]")
  /\ fst (analyze_item test_depth [] (JString (js "a"))
                       (stub (JString (js "[1]"))))
     = Normal [ success_entry (JString (js "a"))
                              (JArray [JNumber (of_decimal false 1 0)]) ]
  /\ ~ every_item test_depth
                  (fun o => has_content o (JString (js "[1]")))
                  JNull failure_entry.
Proof.
  split; [left; vm_compute; reflexivity|].
  split; [vm_compute; reflexivity|].
  intros [H _].
  destruct (H (stub (JString (js "[1]"))) [] (JString (js "a")) (js "a")
              eq_refl) as [H1 _].
  - exists (reply (JString (js "[1]"))). split; reflexivity.
  - vm_compute in H1. discriminate H1.
Qed.

Lemma unparsable_text_fails_witness :
  fst (analyze_item test_depth [] (JString (js "a"))
                    (stub (JString (js "} no {"))))
  = Normal [ failure_entry (JString (js "a")) ]
  /\ fst (analyze_item test_depth [] (JString (js "a"))
                       (stub (JString (js "{oops}"))))
     = Normal [ failure_entry (JString (js "a")) ].
Proof.
  split.
  - refine (proj2 (proj1 (unparsable_text_fails test_depth
                                                (js "} no {") eq_refl _)
                         (stub (JString (js "} no {"))) []
                         (JString (js "a")) (js "a") eq_refl _)).
    + left. right. vm_compute. congruence.
    + exists (reply (JString (js "} no {"))). split; reflexivity.
  - refine (proj2 (proj1 (unparsable_text_fails test_depth
                                                (js "{oops}") eq_refl _)
                         (stub (JString (js "{oops}"))) []
                         (JString (js "a")) (js "a") eq_refl _)).
    + right. reflexivity.
    + exists (reply (JString (js "{oops}"))). split; reflexivity.
Defined.

(** C8 as stated fails: the text [null] is JSON and parses to [null],
    which the handler takes for the failure signal of [analyzeQuote]. *)
Lemma parsed_value_passed_through_counterexample :
  parses_to (js "null") JNull
  /\ fst (analyze_item test_depth [] (JString (js "a"))
                       (stub (JString (js "null"))))
     = Normal [ failure_entry (JString (js "a")) ]
  /\ ~ every_item test_depth
                  (fun o => has_content o (JString (js "null")))
                  JNull
                  (fun quote => success_entry quote JNull).
Proof.
  split; [left; reflexivity|].
  split; [vm_compute; reflexivity|].
  intros [H _].
  destruct (H (stub (JString (js "null"))) [] (JString (js "a")) (js "a")
              eq_refl) as [_ H2].
  - exists (reply (JString (js "null"))). split; reflexivity.
  - vm_compute in H2. discriminate H2.
Qed.

Lemma parsed_value_passed_through_witness :
  fst (analyze_item test_depth [] (JString (js "a"))
         (stub (JString (js "{" ++ quoted "mood" ++ js ":[true]}"))))
  = Normal [ success_entry (JString (js "a"))
               (JObject [ (js "mood", JArray [JBool true]) ]) ].
Proof.
  refine (proj2 (proj1 (parsed_value_passed_through
                          test_depth
                          (js "{" ++ quoted "mood" ++ js ":[true]}")
                          (JObject [ (js "mood", JArray [JBool true]) ])
                          (or_introl eq_refl) eq_refl)
                       (stub (JString (js "{" ++ quoted "mood" ++ js ":[true]}")))
                       [] (JString (js "a")) (js "a") eq_refl _)).
  eexists. split; reflexivity.
Defined.

(** ** Determinism *)

Lemma deterministic_stub_same_results_witness :
  fst (analyze_handler
         test_depth
         (request_with [JString (js "a"); JString (js "b")])
         (snd (analyze_handler
                 test_depth
                 (request_with [JString (js "a"); JString (js "b")])
                 (stub (JString strict_text)))))
  = fst (analyze_handler
           test_depth
           (request_with [JString (js "a"); JString (js "b")])
           (stub (JString strict_text))).
Proof.
  refine (proj1 (deterministic_stub_same_results
                   test_depth
                   (stub (JString strict_text))
                   (request_with [JString (js "a"); JString (js "b")]) _)).
  intros h h' request. reflexivity.
Defined.

(** ** [analyzeQuote] *)

Lemma analyzeQuote_single_attempt_witness :
  exists v w',
    analyzeQuote test_depth (JString (js "a")) unreachable = (Normal v, w')
    /\ calls w' = calls unreachable ++ [chat_request (js "a")]
    /\ api w' = api unreachable
    /\ (console w' = console unreachable
        \/ exists e, console w' = console unreachable ++ [e]).
Proof.
  apply analyzeQuote_single_attempt. reflexivity.
Defined.

Lemma rejection_logged_not_returned_witness :
  analyzeQuote test_depth (JString (js "a")) unreachable
  = (Normal JNull,
     {| api := api unreachable;
        calls := [chat_request (js "a")];
        console := [Error (js "network failure")] |}).
Proof.
  apply (rejection_logged_not_returned
           test_depth unreachable (JString (js "a"))
           (js "a") (Error (js "network failure")));
    reflexivity.
Defined.

Lemma success_logs_nothing_witness :
  console (snd (analyzeQuote test_depth (JString (js "a"))
                             (stub (JString strict_text))))
  = console (stub (JString strict_text)).
Proof.
  apply (success_logs_nothing
           test_depth
           (stub (JString strict_text))
           (snd (analyzeQuote test_depth (JString (js "a"))
                              (stub (JString strict_text))))
           (JString (js "a")) strict_analysis);
    vm_compute; reflexivity.
Defined.

Lemma missing_content_is_empty_response_witness :
  console (snd (analyzeQuote
                  test_depth
                  (JString (js "a"))
                  {| api := fun _ _ =>
                              Resolves (JObject [ (js "choices", JArray []) ]);
                     calls := []; console := [] |}))
  = [Error (js "Empty response from OpenAI")]
  /\ console (snd (analyzeQuote
                     test_depth
                     (JString (js "a"))
                     {| api := fun _ _ => Resolves JUndefined;
                        calls := []; console := [] |}))
     = [TypeError].
Proof.
  split.
  - rewrite (missing_content_is_empty_response
               test_depth
               {| api := fun _ _ =>
                           Resolves (JObject [ (js "choices", JArray []) ]);
                  calls := []; console := [] |}
               (JString (js "a")) (js "a")
               (JObject [ (js "choices", JArray []) ])
               eq_refl eq_refl).
    + reflexivity.
    + intros content H. vm_compute in H. inversion H. reflexivity.
  - rewrite (missing_content_is_empty_response
               test_depth
               {| api := fun _ _ => Resolves JUndefined;
                  calls := []; console := [] |}
               (JString (js "a")) (js "a") JUndefined eq_refl eq_refl).
    + reflexivity.
    + intros content H. vm_compute in H. discriminate H.
Defined.

Lemma logged_syntax_error_witness :
  console (snd (analyzeQuote test_depth (JString (js "a"))
                             (stub (JString (js "Sorry {oops} bye")))))
  = [SyntaxError (js "{oops}")]
  /\ console (snd (analyzeQuote test_depth (JString (js "a"))
                                (stub (JString (js "Sorry")))))
     = [SyntaxError (js "Sorry")].
Proof.
  split.
  - rewrite (logged_syntax_error test_depth
               (stub (JString (js "Sorry {oops} bye")))
               (JString (js "a")) (js "a") (js "Sorry {oops} bye") eq_refl).
    + reflexivity.
    + eexists. split; reflexivity.
    + discriminate.
    + reflexivity.
    + reflexivity.
  - rewrite (logged_syntax_error test_depth (stub (JString (js "Sorry")))
               (JString (js "a")) (js "a") (js "Sorry") eq_refl).
    + reflexivity.
    + eexists. split; reflexivity.
    + discriminate.
    + reflexivity.
    + discriminate.
Defined.

Lemma braced_text_not_repaired_witness :
  fst (analyze_item test_depth [] (JString (js "a"))
                    (stub (JString (js "{sentiment: 0.5}"))))
  = Normal [ failure_entry (JString (js "a")) ].
Proof.
  refine (proj1 (proj2 (braced_text_not_repaired
                          test_depth
                          (stub (JString (js "{sentiment: 0.5}"))) []
                          (JString (js "a")) (js "a") (js "sentiment: 0.5")
                          eq_refl _ eq_refl))).
  eexists. split; reflexivity.
Defined.

Lemma fallback_yields_object_or_null_witness :
  exists v,
    fst (analyzeQuote test_depth (JString (js "a"))
                      (stub (JString (js "Here you go: [1,2]"))))
    = Normal v
    /\ (v = JNull \/ is_object v = true).
Proof.
  apply (fallback_yields_object_or_null
           test_depth
           (stub (JString (js "Here you go: [1,2]")))
           (JString (js "a")) (js "a") (js "Here you go: [1,2]")).
  - reflexivity.
  - eexists. split; reflexivity.
  - reflexivity.
Defined.

(** ** The handler *)

Lemma responds_iff_coercible_witness :
  (exists rs w',
      responds test_depth unreachable
               (request_with [JNull; JBool false; hides_toString JNull])
               rs w')
  <-> Forall (coercible test_depth)
             (firstn 2 [JNull; JBool false; hides_toString JNull]).
Proof.
  apply responds_iff_coercible; [reflexivity | discriminate].
Defined.

Lemma handler_partial_work_witness :
  (exists w',
      analyze_handler test_depth
                      (request_with [JString (js "a"); hides_toString JNull])
                      (stub (JString strict_text))
      = (Throw TypeError, w')
      /\ (TypeError = TypeError \/ TypeError = RangeError)
      /\ calls w'
         = calls (stub (JString strict_text)) ++ [chat_request (js "a")]
      /\ api w' = api (stub (JString strict_text)))
  /\ (exists w',
         analyze_handler
           2
           (request_with [JString (js "a");
                          JArray [ JArray [ JArray [] ] ]])
           (stub (JString strict_text))
         = (Throw RangeError, w')
         /\ (RangeError = TypeError \/ RangeError = RangeError)
         /\ calls w'
            = calls (stub (JString strict_text)) ++ [chat_request (js "a")]
         /\ api w' = api (stub (JString strict_text))).
Proof.
  split.
  - apply (handler_partial_work
             test_depth (stub (JString strict_text))
             (request_with [JString (js "a"); hides_toString JNull])
             (JString (js "a")) (hides_toString JNull) [] (js "a") TypeError);
      reflexivity.
  - apply (handler_partial_work
             2 (stub (JString strict_text))
             (request_with [JString (js "a");
                            JArray [ JArray [ JArray [] ] ]])
             (JString (js "a")) (JArray [ JArray [ JArray [] ] ]) []
             (js "a") RangeError);
      reflexivity.
Defined.

Lemma string_quotes_always_answered_witness :
  exists rs w',
    responds test_depth unreachable
             (request_with [JString []; JString (js "b")]) rs w'
    /\ List.length rs = 2.
Proof.
  destruct (string_quotes_always_answered
              test_depth
              unreachable (request_with [JString []; JString (js "b")])
              [JString []; JString (js "b")] eq_refl)
    as [rs [w' [Hr [Hlen _]]]].
  - discriminate.
  - intros q [<- | [<- | []]]; eexists; reflexivity.
  - exists rs, w'. split; [exact Hr | exact Hlen].
Defined.

Lemma request_determines_text_witness :
  request_for test_depth JNull = request_for test_depth (JString (js "null"))
  /\ request_for test_depth (JString (js "a"))
     <> request_for test_depth (JString (js "b")).
Proof.
  split.
  - apply (proj2 (request_determines_text
                    test_depth
                    JNull (JString (js "null")) (js "null") (js "null")
                    eq_refl eq_refl)).
    reflexivity.
  - intros H.
    apply (proj1 (request_determines_text
                    test_depth
                    (JString (js "a")) (JString (js "b")) (js "a") (js "b")
                    eq_refl eq_refl)) in H.
    discriminate H.
Defined.

Lemma handler_logs_bounded_witness :
  exists rs w' logs,
    responds test_depth unreachable (request_with [JString (js "a")]) rs w'
    /\ console w' = console unreachable ++ logs
    /\ List.length logs <= List.length (filter has_error rs)
    /\ (forallb (fun entry => negb (has_error entry)) rs = true ->
        console w' = console unreachable).
Proof.
  apply (handler_logs_bounded
           test_depth unreachable (request_with [JString (js "a")])
           [JString (js "a")]).
  - reflexivity.
  - discriminate.
  - all_coercible.
Defined.
